(** * Factoring analysis: data preparation and aging classification

    A shallow embedding of the cleaning and aging pipeline of the
    factoring-analysis scripts:

    - [scripts/factoring_analyzer.py]   ([FactoringAnalyzer.prepare_data]),
    - [scripts/final_export.py]         ([calculate_aging_correctly],
                                         [create_aging_bucket], [final_export]),
    - [reports/routine_supportfor_report_v01.py]
                                        ([CorrectedFactoringAnalyzer.prepare_data]),
    - [scripts/export_aging_buckets.py] ([export_aging_buckets]).

    A pandas DataFrame is a list of rows; a column is a field of the row
    record.  A float64 value is an exact rational or one of the three
    special values (rounding to the nearest double is not modelled).  A
    timestamp at midnight is the number of its day, counted from
    1970-01-01; the wall clock is an explicit argument in seconds. *)

From Stdlib Require Import ZArith QArith Qround Qabs List String Ascii Bool.
From Stdlib Require Import Lia Lqa Permutation Sorted.
Import ListNotations.

Local Open Scope Z_scope.

(* ================================================================== *)
(** * Values of a float64 column *)
(* ================================================================== *)

Module PyFloat.

(** A float64: a finite value, one of the two infinities, or NaN. *)
Inductive pyfloat : Type :=
| Fin (q : Q)
| PInf
| NInf
| NaN.

(** Equality of floats as values ([Q] is not in normal form). *)
Definition feq (x y : pyfloat) : Prop :=
  match x, y with
  | Fin a, Fin b => (a == b)%Q
  | PInf, PInf => True
  | NInf, NInf => True
  | NaN, NaN => True
  | _, _ => False
  end.

Definition is_finite (x : pyfloat) : bool :=
  match x with Fin _ => true | _ => false end.

Definition isna (x : pyfloat) : bool :=
  match x with NaN => true | _ => false end.

(** [Series.fillna(v)] on one value. *)
Definition fillna (v : pyfloat) (x : pyfloat) : pyfloat :=
  match x with NaN => v | _ => x end.

(** [x == 0] and [x > 0] as numpy evaluates them (false on NaN). *)
Definition feq0 (x : pyfloat) : bool :=
  match x with Fin q => Qeq_bool q 0 | _ => false end.

Definition fgt0 (x : pyfloat) : bool :=
  match x with
  | Fin q => negb (Qle_bool q 0)
  | PInf => true
  | _ => false
  end.

Definition flt0 (x : pyfloat) : bool :=
  match x with
  | Fin q => negb (Qle_bool 0 q)
  | NInf => true
  | _ => false
  end.

(** [x >= 0]. *)
Definition fge0 (x : pyfloat) : bool :=
  match x with
  | Fin q => Qle_bool 0 q
  | PInf => true
  | _ => false
  end.

(** IEEE addition, exact on finite values. *)
Definition fadd (x y : pyfloat) : pyfloat :=
  match x, y with
  | NaN, _ | _, NaN => NaN
  | PInf, NInf | NInf, PInf => NaN
  | PInf, _ | _, PInf => PInf
  | NInf, _ | _, NInf => NInf
  | Fin a, Fin b => Fin (a + b)
  end.

(** IEEE multiplication, exact on finite values. *)
Definition fmul (x y : pyfloat) : pyfloat :=
  match x, y with
  | NaN, _ | _, NaN => NaN
  | Fin a, Fin b => Fin (a * b)
  | Fin a, PInf | PInf, Fin a =>
      if Qeq_bool a 0 then NaN else if Qle_bool a 0 then NInf else PInf
  | Fin a, NInf | NInf, Fin a =>
      if Qeq_bool a 0 then NaN else if Qle_bool a 0 then PInf else NInf
  | PInf, PInf | NInf, NInf => PInf
  | PInf, NInf | NInf, PInf => NInf
  end.

(** numpy division: [x / 0] is an infinity, [0 / 0] is NaN, nothing is
    raised. *)
Definition fdiv (x y : pyfloat) : pyfloat :=
  match x, y with
  | NaN, _ | _, NaN => NaN
  | Fin a, Fin b =>
      if Qeq_bool b 0
      then (if Qeq_bool a 0 then NaN
            else if Qle_bool a 0 then NInf else PInf)
      else Fin (a / b)
  | Fin _, PInf | Fin _, NInf => Fin 0
  | PInf, Fin b => if Qle_bool 0 b then PInf else NInf
  | NInf, Fin b => if Qle_bool 0 b then NInf else PInf
  | _, _ => NaN
  end.

(** Round half to even, the rule of [numpy.rint]. *)
Definition rint (q : Q) : Z :=
  let f := Qfloor q in
  let r := (q - inject_Z f)%Q in
  match Qcompare r (1 # 2) with
  | Lt => f
  | Gt => f + 1
  | Eq => if Z.even f then f else f + 1
  end.

(** [numpy.round(x, 2)]: [rint(x * 100) / 100]. *)
Definition round2 (q : Q) : Q := (inject_Z (rint (q * 100)) / 100)%Q.

Definition fround2 (x : pyfloat) : pyfloat :=
  match x with Fin q => Fin (round2 q) | _ => x end.

(** [Series.sum()]: NaN entries are skipped. *)
Definition fsum (l : list pyfloat) : pyfloat :=
  fold_right (fun x acc => if isna x then acc else fadd x acc) (Fin 0) l.

End PyFloat.
Export PyFloat.

(* ================================================================== *)
(** * Monetary normalizer *)
(* ================================================================== *)

Module Monetary.

Local Open Scope string_scope.

(** A cell of a column read from the CSV file: a string, a number, or
    the missing value.  A number is carried with the text [str] gives
    it: the normalizer reads nothing else of it. *)
Inductive cell : Type :=
| CStr (s : string)
| CNum (repr : string)
| CNaN.

(** [Series.astype(str)] on one cell. *)
Definition astype_str (c : cell) : string :=
  match c with
  | CStr s => s
  | CNum r => r
  | CNaN => "nan"
  end.

Definition notna (c : cell) : bool :=
  match c with CNaN => false | _ => true end.

(** [Series.str.replace(c, r, regex=False)] for a pattern of one
    character. *)
Fixpoint str_replace (c : ascii) (r : string) (s : string) : string :=
  match s with
  | EmptyString => EmptyString
  | String a s' =>
      if Ascii.eqb a c then r ++ str_replace c r s'
      else String a (str_replace c r s')
  end.

(** [Series.replace(old, new)]: replaces a value that is equal to [old]
    as a whole. *)
Definition replace_value (old new s : string) : string :=
  if String.eqb s old then new else s.

(** The chain of replacements of [prepare_data], step 1. *)
Definition clean_monetary (c : cell) : string :=
  let s := astype_str c in
  let s := str_replace "$" "" s in
  let s := str_replace "," "" s in
  let s := str_replace " " "" s in
  let s := str_replace "(" "-" s in
  let s := str_replace ")" "" s in
  let s := replace_value "nan" "0" s in
  replace_value "" "0" s.

(** ** [pd.to_numeric(..., errors='coerce')] on one string

    The tokenizer of pandas: optional blanks, an optional sign, digits
    with an optional fraction (one digit at least), an optional exponent,
    optional blanks, then the end of the string.  A string it does not
    accept is one of the infinity literals, or is coerced to NaN. *)

Definition is_digit (c : ascii) : bool :=
  let n := N_of_ascii c in ((48 <=? n) && (n <=? 57))%N.

Definition digit_val (c : ascii) : Z := Z.of_N (N_of_ascii c) - 48.

Definition is_space (c : ascii) : bool :=
  let n := N_of_ascii c in ((n =? 32) || ((9 <=? n) && (n <=? 13)))%N.

Fixpoint skip_space (s : string) : string :=
  match s with
  | String c s' => if is_space c then skip_space s' else s
  | EmptyString => EmptyString
  end.

Definition take_sign (s : string) : bool * string :=
  match s with
  | String "-" s' => (true, s')
  | String "+" s' => (false, s')
  | _ => (false, s)
  end.

(** Reads a run of digits: the number read so far, how many digits were
    read, and the rest. *)
Fixpoint take_digits (acc : Z) (n : Z) (s : string) : Z * Z * string :=
  match s with
  | String c s' =>
      if is_digit c then take_digits (acc * 10 + digit_val c) (n + 1) s'
      else (acc, n, s)
  | EmptyString => (acc, n, EmptyString)
  end.

(** An exponent without digits is not consumed. *)
Definition take_exponent (s : string) : Z * string :=
  match s with
  | String c s1 =>
      if (Ascii.eqb c "e" || Ascii.eqb c "E")%bool then
        let '(neg, s2) := take_sign s1 in
        let '(e, n, s3) := take_digits 0 0 s2 in
        if (n =? 0)%Z then (0, s) else ((if neg then - e else e), s3)
      else (0, s)
  | EmptyString => (0, s)
  end.

(** [m * 10 ^ k] as a rational. *)
Definition scale10 (m k : Z) : Q :=
  if (0 <=? k)%Z then inject_Z (m * 10 ^ k)
  else Qmake m (Z.to_pos (10 ^ (- k))).

(** Magnitudes from [2 ^ 1024] on are beyond float64: the tokenizer
    reports a range error. *)
Definition in_range (q : Q) : bool :=
  negb (Qle_bool (inject_Z (2 ^ 1024)) (Qabs q)).

Definition xstrtod (s : string) : option Q :=
  let s := skip_space s in
  let '(neg, s) := take_sign s in
  let '(ip, n1, s) := take_digits 0 0 s in
  let '(m, n2, s) :=
    match s with
    | String "." s' => take_digits ip 0 s'
    | _ => (ip, 0, s)
    end in
  if (n1 + n2 =? 0)%Z then None
  else
    let '(e, s) := take_exponent s in
    let q := scale10 (if neg then - m else m) (e - n2) in
    match skip_space s with
    | EmptyString => if in_range q then Some q else None
    | _ => None
    end.

Definition lower (c : ascii) : ascii :=
  let n := N_of_ascii c in
  if ((65 <=? n) && (n <=? 90))%N then ascii_of_N (n + 32) else c.

Fixpoint lowercase (s : string) : string :=
  match s with
  | String c s' => String (lower c) (lowercase s')
  | EmptyString => EmptyString
  end.

(** The literals of [floatify], compared without regard to case. *)
Definition inf_literal (s : string) : option pyfloat :=
  let l := lowercase s in
  if (String.eqb l "inf" || String.eqb l "+inf" ||
      String.eqb l "infinity" || String.eqb l "+infinity")%bool
  then Some PInf
  else if (String.eqb l "-inf" || String.eqb l "-infinity")%bool
  then Some NInf
  else None.

Definition to_numeric (s : string) : pyfloat :=
  match xstrtod s with
  | Some q => Fin q
  | None =>
      match inf_literal s with
      | Some v => v
      | None => NaN
      end
  end.

(** The monetary normalizer: the conversion [prepare_data] applies to
    every cell of the three monetary columns. *)
Definition normalize (c : cell) : pyfloat :=
  fillna (Fin 0) (to_numeric (clean_monetary c)).

End Monetary.
Export Monetary.

(* ================================================================== *)
(** * The grammar of monetary strings *)
(* ================================================================== *)

Module MoneyGrammar.

Local Open Scope string_scope.


Fixpoint all_digits (s : string) : bool :=
  match s with
  | EmptyString => true
  | String c s' => is_digit c && all_digits s'
  end.

Definition digit_group (g : string) : Prop :=
  g <> EmptyString /\ all_digits g = true.


(** Thousands separators proper: one to three digits, then groups of
    three. *)
Definition thousands (gs : list string) : Prop :=
  match gs with
  | [] => False
  | g :: rest =>
      (1 <= String.length g <= 3)%nat /\
      Forall (fun h => String.length h = 3%nat) rest
  end.










Fixpoint all_chars (p : ascii -> bool) (s : string) : bool :=
  match s with
  | EmptyString => true
  | String c s' => p c && all_chars p s'
  end.



End MoneyGrammar.

(* ================================================================== *)
(** * Dates *)
(* ================================================================== *)

Module Dates.

Local Open Scope string_scope.

Definition is_leap (y : Z) : bool :=
  (((y mod 4 =? 0) && negb (y mod 100 =? 0)) || (y mod 400 =? 0))%Z.

Definition days_in_month (y m : Z) : Z :=
  if (m =? 2)%Z then (if is_leap y then 29 else 28)
  else if ((m =? 4) || (m =? 6) || (m =? 9) || (m =? 11))%Z then 30
  else 31.

(** The day number of a date of the Gregorian calendar, 1970-01-01
    being day 0. *)
Definition days_from_civil (y m d : Z) : Z :=
  let y' := if (m <=? 2)%Z then y - 1 else y in
  let era := y' / 400 in
  let yoe := y' - era * 400 in
  let mp := (m + 9) mod 12 in
  let doy := (153 * mp + 2) / 5 + d - 1 in
  let doe := yoe * 365 + yoe / 4 - yoe / 100 + doy in
  era * 146097 + doe - 719468.

(** The days a nanosecond timestamp can hold at midnight:
    1677-09-22 to 2262-04-11. *)
Definition in_bounds (day : Z) : bool :=
  ((days_from_civil 1677 9 22 <=? day) &&
   (day <=? days_from_civil 2262 4 11))%Z.

(** One or two digits, then the rest. *)
Definition take_1_2_digits (s : string) : option (Z * string) :=
  match s with
  | String a (String b s') =>
      if is_digit a then
        if is_digit b then Some (digit_val a * 10 + digit_val b, s')
        else Some (digit_val a, String b s')
      else None
  | String a EmptyString =>
      if is_digit a then Some (digit_val a, EmptyString) else None
  | EmptyString => None
  end.

(** The day of the month: one or two digits, or a blank and one
    digit. *)
Definition take_day (s : string) : option (Z * string) :=
  match s with
  | String " " (String b s') =>
      if is_digit b then Some (digit_val b, s') else None
  | _ => take_1_2_digits s
  end.

Definition expect (c : ascii) (s : string) : option string :=
  match s with
  | String a s' => if Ascii.eqb a c then Some s' else None
  | EmptyString => None
  end.

Definition take_year (s : string) : option Z :=
  match s with
  | String a (String b (String c (String d EmptyString))) =>
      if (is_digit a && is_digit b && is_digit c && is_digit d)%bool
      then Some (digit_val a * 1000 + digit_val b * 100 +
                 digit_val c * 10 + digit_val d)
      else None
  | _ => None
  end.

(** A string in the format [%m/%d/%Y]; [None] is [NaT]. *)
Definition strptime_mdY (s : string) : option Z :=
  match take_1_2_digits s with
  | None => None
  | Some (m, s1) =>
      match expect "/" s1 with
      | None => None
      | Some s2 =>
          match take_day s2 with
          | None => None
          | Some (d, s3) =>
              match expect "/" s3 with
              | None => None
              | Some s4 =>
                  match take_year s4 with
                  | None => None
                  | Some y =>
                      if ((1 <=? m) && (m <=? 12) && (1 <=? d) &&
                          (d <=? days_in_month y m))%Z
                      then
                        let day := days_from_civil y m d in
                        if in_bounds day then Some day else None
                      else None
                  end
              end
          end
      end
  end.

(** [pd.to_datetime(x, format='%m/%d/%Y', errors='coerce')] on one
    cell. *)
Definition to_datetime_mdY (c : cell) : option Z :=
  match c with
  | CNaN => None
  | CStr s => strptime_mdY s
  | CNum r => strptime_mdY r
  end.

(** The difference of two timestamps in days, [NaT] when one is. *)
Definition days_between (a b : option Z) : option Z :=
  match a, b with
  | Some x, Some y => Some (x - y)
  | _, _ => None
  end.

(** [(now - date).dt.days] for a clock reading [now] in seconds since
    the epoch: the whole days of the difference. *)
Definition days_since (now : Z) (d : option Z) : option Z :=
  match d with
  | Some x => Some ((now - 86400 * x) / 86400)
  | None => None
  end.

End Dates.
Export Dates.

(* ================================================================== *)
(** * Rows, type partition and aging bins *)
(* ================================================================== *)

Module Frame.

Local Open Scope string_scope.

(** One row of the table; [A] is the type of the monetary columns:
    [cell] as read, [pyfloat] once normalized. *)
Record Row (A : Type) : Type := mkRow {
  Type_ : cell;
  Number : cell;
  Transaction_Date : cell;
  Applied_to : cell;
  Amount : A;
  Due_Date : cell;
  Status : cell;
  Last_Payment_Date : cell;
  Amt_Paid : A;
  Amt_Due : A
}.

Arguments mkRow {A}.
Arguments Type_ {A}.
Arguments Number {A}.
Arguments Transaction_Date {A}.
Arguments Applied_to {A}.
Arguments Amount {A}.
Arguments Due_Date {A}.
Arguments Status {A}.
Arguments Last_Payment_Date {A}.
Arguments Amt_Paid {A}.
Arguments Amt_Due {A}.

(** Applies a conversion to the three monetary columns. *)
Definition map_monetary {A B : Type} (f : A -> B) (r : Row A) : Row B :=
  {| Type_ := Type_ r;
     Number := Number r;
     Transaction_Date := Transaction_Date r;
     Applied_to := Applied_to r;
     Amount := f (Amount r);
     Due_Date := Due_Date r;
     Status := Status r;
     Last_Payment_Date := Last_Payment_Date r;
     Amt_Paid := f (Amt_Paid r);
     Amt_Due := f (Amt_Due r) |}.

(** [df['Type'] == t] on one row. *)
Definition type_is {A : Type} (t : string) (r : Row A) : bool :=
  match Type_ r with
  | CStr s => String.eqb s t
  | _ => false
  end.

(** [Series.count()]: the cells that are not missing. *)
Definition count_notna {R : Type} (col : R -> cell) (df : list R) : Z :=
  Z.of_nat (List.length (filter (fun r => notna (col r)) df)).

(** An edge of a bin of [pd.cut]. *)
Inductive edge : Type :=
| NegInf
| Edge (z : Z)
| PosInf.

Definition edge_ltb (e : edge) (x : Z) : bool :=
  match e with
  | NegInf => true
  | Edge z => (z <? x)%Z
  | PosInf => false
  end.

Definition leb_edge (x : Z) (e : edge) : bool :=
  match e with
  | NegInf => false
  | Edge z => (x <=? z)%Z
  | PosInf => true
  end.

(** The label of the bin [(lo, hi]] a value falls in. *)
Fixpoint cut_bins (bins : list edge) (labels : list string) (x : Z)
  : option string :=
  match bins, labels with
  | lo :: ((hi :: _) as bins'), l :: labels' =>
      if edge_ltb lo x && leb_edge x hi then Some l
      else cut_bins bins' labels' x
  | _, _ => None
  end.

(** [pd.cut(x, bins, labels)]: a missing value has no bin. *)
Definition pd_cut (bins : list edge) (labels : list string) (x : option Z)
  : option string :=
  match x with
  | Some v => cut_bins bins labels v
  | None => None
  end.

(** [bins=[-float('inf'), 0, 30, 60, 90, float('inf')]]. *)
Definition aging_bins : list edge :=
  [NegInf; Edge 0; Edge 30; Edge 60; Edge 90; PosInf].

Definition paid_labels : list string :=
  ["On-time"; "1-30 Days"; "31-60 Days"; "61-90 Days"; "90+ Days"].

Definition outstanding_labels : list string :=
  ["Current"; "1-30 Days"; "31-60 Days"; "61-90 Days"; "90+ Days"].

End Frame.
Export Frame.

(* ================================================================== *)
(** * [FactoringAnalyzer] (scripts/factoring_analyzer.py) *)
(* ================================================================== *)

Module FactoringAnalyzer.

Local Open Scope string_scope.

(** A row of [self.df] after steps 3 and 4 of [prepare_data]. *)
Record AnalysisRow : Type := mkAnalysisRow {
  base : Row pyfloat;
  Transaction_Date_ts : option Z;
  Due_Date_ts : option Z;
  Last_Payment_Date_ts : option Z;
  Days_Since_Transaction : option Z;
  Days_Past_Due : option Z;
  Days_to_Payment : option Z;
  Aging_Bucket : option string
}.

(** The attributes of the analyzer after [prepare_data]. *)
Record t : Type := mkAnalyzer {
  df : list AnalysisRow;
  df_invoice : list (Row pyfloat);
  df_credit_memo : list (Row pyfloat);
  df_full : list (Row pyfloat)
}.

Section PrepareData.

(** [pd.to_datetime(x, errors='coerce')] without a format: pandas
    infers the format of the column; the conversion is a parameter. *)
Variable to_datetime : cell -> option Z.

(** Step 4 on one invoice; [now] is the reading of [datetime.now()]. *)
Definition analysis_row (now : Z) (r : Row pyfloat) : AnalysisRow :=
  let td := to_datetime (Transaction_Date r) in
  let dd := to_datetime (Due_Date r) in
  let lp := to_datetime (Last_Payment_Date r) in
  let past_due := days_since now dd in
  {| base := r;
     Transaction_Date_ts := td;
     Due_Date_ts := dd;
     Last_Payment_Date_ts := lp;
     Days_Since_Transaction := days_since now td;
     Days_Past_Due := past_due;
     Days_to_Payment := days_between lp td;
     Aging_Bucket := pd_cut aging_bins outstanding_labels past_due |}.

Definition prepare_data (now : Z) (raw : list (Row cell)) : t :=
  let cleaned := map (map_monetary normalize) raw in
  let invoices := filter (type_is "Invoice") cleaned in
  {| df := map (analysis_row now) invoices;
     df_invoice := invoices;
     df_credit_memo := filter (type_is "Credit Memo") cleaned;
     df_full := cleaned |}.

(** The invoice counts of [accounts_receivable_aging], one per bucket. *)
Definition aging_counts (a : t) : list (string * Z) :=
  map (fun l =>
         (l, count_notna (fun r => Number (base r))
               (filter (fun r =>
                          match Aging_Bucket r with
                          | Some b => String.eqb b l
                          | None => false
                          end) (df a))))
      outstanding_labels.

End PrepareData.

End FactoringAnalyzer.

(* ================================================================== *)
(** * [export_aging_buckets] (scripts/export_aging_buckets.py) *)
(* ================================================================== *)

Module ExportAgingBuckets.

Local Open Scope string_scope.

Record InvoiceRow : Type := mkInvoiceRow {
  base : Row pyfloat;
  Due_Date_ts : option Z;
  Transaction_Date_ts : option Z;
  Days_Past_Due : option Z;
  Days_Since_Transaction : option Z;
  Aging_Bucket : option string
}.

Section Routine.

Variable to_datetime : cell -> option Z.

Definition invoice_row (today : Z) (r : Row pyfloat) : InvoiceRow :=
  let dd := to_datetime (Due_Date r) in
  let td := to_datetime (Transaction_Date r) in
  let past_due := days_since today dd in
  {| base := r;
     Due_Date_ts := dd;
     Transaction_Date_ts := td;
     Days_Past_Due := past_due;
     Days_Since_Transaction := days_since today td;
     Aging_Bucket := pd_cut aging_bins outstanding_labels past_due |}.

(** The dictionary [aging_buckets]: the invoices of each bucket;
    [today] is the reading of [datetime.now()]. *)
Definition export_aging_buckets (today : Z) (raw : list (Row cell))
  : list (string * list InvoiceRow) :=
  let cleaned := map (map_monetary normalize) raw in
  let df_invoices := map (invoice_row today)
                         (filter (type_is "Invoice") cleaned) in
  map (fun bucket =>
         (bucket,
          filter (fun r =>
                    match Aging_Bucket r with
                    | Some b => String.eqb b bucket
                    | None => false
                    end) df_invoices))
      outstanding_labels.

End Routine.

End ExportAgingBuckets.

(* ================================================================== *)
(** * [CorrectedFactoringAnalyzer]
      (reports/routine_supportfor_report_v01.py) *)
(* ================================================================== *)

Module CorrectedFactoringAnalyzer.

Local Open Scope string_scope.

(** The replacements of this class: blanks are kept, and a missing cell
    is left to [fillna]. *)
Definition clean_monetary (c : cell) : string :=
  let s := astype_str c in
  let s := str_replace "$" "" s in
  let s := str_replace "," "" s in
  let s := str_replace "(" "-" s in
  str_replace ")" "" s.

Definition normalize (c : cell) : pyfloat :=
  fillna (Fin 0) (to_numeric (clean_monetary c)).

(** A row of [df_invoice], its three dates converted. *)
Record InvoiceRow : Type := mkInvoiceRow {
  base : Row pyfloat;
  Transaction_Date_ts : option Z;
  Due_Date_ts : option Z;
  Last_Payment_Date_ts : option Z
}.

(** A row of [df_paid_invoices] or [df_outstanding_invoices]. *)
Record AgedRow : Type := mkAgedRow {
  invoice : InvoiceRow;
  Aging_Delay : option Z;
  Aging_Bucket : option string
}.

Record t : Type := mkAnalyzer {
  df_invoice : list InvoiceRow;
  df_credit_memo : list (Row pyfloat);
  df_full : list (Row pyfloat);
  df_paid_invoices : list AgedRow;
  df_outstanding_invoices : list AgedRow
}.

Definition invoice_row (r : Row pyfloat) : InvoiceRow :=
  {| base := r;
     Transaction_Date_ts := to_datetime_mdY (Transaction_Date r);
     Due_Date_ts := to_datetime_mdY (Due_Date r);
     Last_Payment_Date_ts := to_datetime_mdY (Last_Payment_Date r) |}.

Definition date_notna (d : option Z) : bool :=
  match d with Some _ => true | None => false end.

(** [dataset_date = datetime(2025, 6, 23)]. *)
Definition dataset_date : Z := days_from_civil 2025 6 23.

Definition paid_row (r : InvoiceRow) : AgedRow :=
  let delay := days_between (Last_Payment_Date_ts r) (Due_Date_ts r) in
  {| invoice := r;
     Aging_Delay := delay;
     Aging_Bucket := pd_cut aging_bins paid_labels delay |}.

Definition outstanding_row (r : InvoiceRow) : AgedRow :=
  let delay := days_between (Some dataset_date) (Due_Date_ts r) in
  {| invoice := r;
     Aging_Delay := delay;
     Aging_Bucket := pd_cut aging_bins outstanding_labels delay |}.

Definition is_paid (r : InvoiceRow) : bool :=
  date_notna (Last_Payment_Date_ts r).

Definition prepare_data (raw : list (Row cell)) : t :=
  let cleaned := map (map_monetary normalize) raw in
  let invoices := map invoice_row (filter (type_is "Invoice") cleaned) in
  {| df_invoice := invoices;
     df_credit_memo := filter (type_is "Credit Memo") cleaned;
     df_full := cleaned;
     df_paid_invoices := map paid_row (filter is_paid invoices);
     df_outstanding_invoices :=
       map outstanding_row (filter (fun r => negb (is_paid r)) invoices) |}.

(** The [Percentage] column of [paid_invoices_aging_analysis]: the
    invoice count of each bucket over the number of paid invoices. *)
Definition bucket_count (l : string) (rows : list AgedRow) : Z :=
  count_notna (fun r => Number (base (invoice r)))
    (filter (fun r =>
               match Aging_Bucket r with
               | Some b => String.eqb b l
               | None => false
               end) rows).

End CorrectedFactoringAnalyzer.

(* ================================================================== *)
(** * [final_export] (scripts/final_export.py) *)
(* ================================================================== *)

Module FinalExport.

Local Open Scope string_scope.

(** The two values [calculate_aging_correctly] is called with:
    ['paid'] and ['outstanding']. *)
Inductive invoice_type : Type :=
| paid
| outstanding.

(** A row of the table [calculate_aging_correctly] returns. *)
Record AgedRow : Type := mkAgedRow {
  base : Row pyfloat;
  Due_Date_ts : option Z;
  Last_Payment_Date_ts : option Z;
  Aging_Delay_Days : Z;
  Aging_Bucket : string
}.

(** [cutoff_date = pd.Timestamp('2025-06-23')]. *)
Definition cutoff_date : Z := days_from_civil 2025 6 23.

(** [fillna(0)] on a column of day counts. *)
Definition fillna0 (d : option Z) : Z :=
  match d with
  | Some x => x
  | None => 0
  end.

Definition create_aging_bucket (days : Z) (ty : invoice_type) : string :=
  if (days <=? 0)%Z then
    match ty with paid => "On-time" | outstanding => "Current" end
  else if ((1 <=? days) && (days <=? 30))%Z then "1-30 Days"
  else if ((31 <=? days) && (days <=? 60))%Z then "31-60 Days"
  else if ((61 <=? days) && (days <=? 90))%Z then "61-90 Days"
  else "90+ Days".

(** [aging_order] of [sort_aging_buckets]. *)
Definition aging_order : list string :=
  ["On-time"; "Current"; "1-30 Days"; "31-60 Days"; "61-90 Days";
   "90+ Days"].

(** [sort_aging_buckets]: the rows in the order of the categories; a
    label that is no category becomes missing, sorts last and reads
    ["nan"]. *)
Definition sort_aging_buckets {V : Type} (tbl : list (string * V))
  : list (string * V) :=
  flat_map (fun c => filter (fun row => String.eqb (fst row) c) tbl)
           aging_order
  ++ map (fun row => ("nan", snd row))
         (filter (fun row => negb (existsb (String.eqb (fst row))
                                           aging_order)) tbl).

(** ** Grouping by bucket *)

Definition group (b : string) (df : list AgedRow) : list AgedRow :=
  filter (fun r => String.eqb (Aging_Bucket r) b) df.

(** The keys of [groupby('Aging_Bucket')]; pandas lists them sorted,
    and every table is put in the order of [sort_aging_buckets] before
    it is written. *)
Definition group_keys (df : list AgedRow) : list string :=
  nodup string_dec (map Aging_Bucket df).

Definition groupby {V : Type} (agg : list AgedRow -> V)
  (df : list AgedRow) : list (string * V) :=
  map (fun k => (k, agg (group k df))) (group_keys df).

Definition sum_col (col : AgedRow -> pyfloat) (df : list AgedRow)
  : pyfloat :=
  fsum (map col df).

Definition count_Number (df : list AgedRow) : Z :=
  count_notna (fun r => Number (base r)) df.

(** [(x / total * 100).round(2)]. *)
Definition percentage (x total : pyfloat) : pyfloat :=
  fround2 (fmul (fdiv x total) (Fin 100)).

Definition of_int (n : Z) : pyfloat := Fin (inject_Z n).

(** Tables 1.1 and 2.1. *)
Definition count_by_aging (df : list AgedRow) : list (string * Z) :=
  sort_aging_buckets (groupby count_Number df).

(** Tables 1.2 and 2.2. *)
Definition amount_by_aging (col : AgedRow -> pyfloat) (df : list AgedRow)
  : list (string * pyfloat) :=
  sort_aging_buckets (groupby (sum_col col) df).

(** Tables 1.3 and 2.3: [Count Percentage] and [Amount Percentage] of
    each bucket. *)
Definition percentages (col : AgedRow -> pyfloat) (df : list AgedRow)
  : list (string * (pyfloat * pyfloat)) :=
  let total_count := Z.of_nat (List.length df) in
  let total_amount := sum_col col df in
  sort_aging_buckets
    (groupby (fun g =>
                (percentage (of_int (count_Number g)) (of_int total_count),
                 percentage (sum_col col g) total_amount))
             df).

(** The sheets of the workbook that hold numbers. *)
Record Workbook : Type := mkWorkbook {
  summary_count : list Z;
  raw_paid_invoices : list AgedRow;
  raw_outstanding_invoices : list AgedRow;
  paid_count : option (list (string * Z));
  paid_amount : option (list (string * pyfloat));
  paid_pct_final : option (list (string * (pyfloat * pyfloat)));
  out_count : option (list (string * Z));
  out_amount : option (list (string * pyfloat));
  out_pct_final : option (list (string * (pyfloat * pyfloat)))
}.

(** A sheet is written only for a population that is not empty. *)
Definition when_rows {R V : Type} (df : list R) (v : V) : option V :=
  match df with
  | [] => None
  | _ :: _ => Some v
  end.

Section Routine.

Variable to_datetime : cell -> option Z.

Definition aging_delay_days (ty : invoice_type) (due lp : option Z) : Z :=
  fillna0
    match ty with
    | paid => days_between lp due
    | outstanding => days_between (Some cutoff_date) due
    end.

Definition aged_row (ty : invoice_type) (r : Row pyfloat) : AgedRow :=
  let due := to_datetime (Due_Date r) in
  let lp := to_datetime (Last_Payment_Date r) in
  let days := aging_delay_days ty due lp in
  {| base := r;
     Due_Date_ts := due;
     Last_Payment_Date_ts := lp;
     Aging_Delay_Days := days;
     Aging_Bucket := create_aging_bucket days ty |}.

Definition calculate_aging_correctly (df : list (Row pyfloat))
  (ty : invoice_type) : list AgedRow :=
  map (aged_row ty) df.

(** The split of [final_export], step 1. *)
Definition paid_invoices_raw (base_df : list (Row pyfloat))
  : list (Row pyfloat) :=
  filter (fun r => feq0 (Amt_Due r)) base_df.

Definition outstanding_invoices_raw (base_df : list (Row pyfloat))
  : list (Row pyfloat) :=
  filter (fun r => fgt0 (Amt_Due r)) base_df.

(** [final_export]; [now] is what [datetime.now()] reads while the
    analyzer prepares its data. *)
Definition final_export (now : Z) (raw : list (Row cell)) : Workbook :=
  let analyzer := FactoringAnalyzer.prepare_data to_datetime now raw in
  let base_df := FactoringAnalyzer.df_invoice analyzer in
  let df_paid :=
    calculate_aging_correctly (paid_invoices_raw base_df) paid in
  let df_out :=
    calculate_aging_correctly (outstanding_invoices_raw base_df)
                              outstanding in
  {| summary_count :=
       [Z.of_nat (List.length (FactoringAnalyzer.df_full analyzer));
        Z.of_nat (List.length base_df);
        Z.of_nat (List.length df_paid);
        Z.of_nat (List.length df_out);
        Z.of_nat (List.length (FactoringAnalyzer.df_credit_memo analyzer))];
     raw_paid_invoices := df_paid;
     raw_outstanding_invoices := df_out;
     paid_count := when_rows df_paid (count_by_aging df_paid);
     paid_amount :=
       when_rows df_paid (amount_by_aging (fun r => Amount (base r)) df_paid);
     paid_pct_final :=
       when_rows df_paid (percentages (fun r => Amount (base r)) df_paid);
     out_count := when_rows df_out (count_by_aging df_out);
     out_amount :=
       when_rows df_out (amount_by_aging (fun r => Amt_Due (base r)) df_out);
     out_pct_final :=
       when_rows df_out (percentages (fun r => Amt_Due (base r)) df_out) |}.

End Routine.

End FinalExport.

(* ================================================================== *)
(** * Reading a percentage table *)
(* ================================================================== *)

Module Aggregates.


Definition Qsum (l : list Q) : Q := fold_right Qplus 0%Q l.

(** The buckets that have a row, in the order of the sheets. *)
Definition present_buckets (df : list FinalExport.AgedRow) : list string :=
  filter (fun b => existsb (String.eqb b) (map FinalExport.Aging_Bucket df))
         FinalExport.aging_order.




Definition number_notna (r : FinalExport.AgedRow) : bool :=
  notna (Number (FinalExport.base r)).

End Aggregates.

(* ================================================================== *)
(** * The classifier the specification describes *)
(* ================================================================== *)

Module SpecClassifier.

(** What the specification says of an invoice: classified with a delay
    and a bucket, or set aside as unclassifiable. *)
Inductive classification : Type :=
| Classified (aging_delay_days : Z) (aging_bucket : string)
| Unclassifiable.

(** The table of section 4.2. *)
Definition spec_bucket (ty : FinalExport.invoice_type) (days : Z)
  : string :=
  if (days <=? 0)%Z then
    match ty with
    | FinalExport.paid => "On-time"
    | FinalExport.outstanding => "Current"
    end%string
  else if (days <=? 30)%Z then "1-30 Days"%string
  else if (days <=? 60)%Z then "31-60 Days"%string
  else if (days <=? 90)%Z then "61-90 Days"%string
  else "90+ Days"%string.

(** The five labels of a mode. *)
Definition labels_of (ty : FinalExport.invoice_type) : list string :=
  match ty with
  | FinalExport.paid => paid_labels
  | FinalExport.outstanding => outstanding_labels
  end.

(** The delay of section 4.2, [snapshot_date] being supplied by the
    caller. *)
Definition spec_delay (snapshot_date : Z) (ty : FinalExport.invoice_type)
  (due lp : option Z) : option Z :=
  match ty with
  | FinalExport.paid => days_between lp due
  | FinalExport.outstanding => days_between (Some snapshot_date) due
  end.

Definition spec_classify (snapshot_date : Z)
  (ty : FinalExport.invoice_type) (due lp : option Z) : classification :=
  match spec_delay snapshot_date ty due lp with
  | Some d => Classified d (spec_bucket ty d)
  | None => Unclassifiable
  end.

(** The two signals of section 4.3 for a paid invoice. *)
Definition paid_by_payment_date (lp : option Z) : bool :=
  match lp with Some _ => true | None => false end.

Definition paid_by_amount_due (amount_due : pyfloat) : bool :=
  feq0 amount_due.

(** The first signal as [CorrectedFactoringAnalyzer] evaluates it on a
    cleaned row. *)
Definition paid_by_date (r : Row pyfloat) : bool :=
  CorrectedFactoringAnalyzer.is_paid
    (CorrectedFactoringAnalyzer.invoice_row r).

(** A row of the file that is an invoice with a negative amount due. *)
Definition negative_due_invoice (r : Row cell) : bool :=
  type_is "Invoice" r && flt0 (normalize (Amt_Due r)).

End SpecClassifier.

(* ================================================================== *)
(** * Sample rows *)
(* ================================================================== *)

Module Samples.

Local Open Scope string_scope.

(** A field as [read_csv] reads it: an empty field is missing. *)
Definition field (s : string) : cell :=
  if String.eqb s "" then CNaN else CStr s.

(** A row of the file, from its type, number, due date, last payment
    date, amount, amount paid and amount due. *)
Definition csv_row (ty number due last_payment amount amt_paid amt_due
                    : string) : Row cell :=
  {| Type_ := field ty;
     Number := field number;
     Transaction_Date := CStr "12/01/2024";
     Applied_to := CStr "ACME";
     Amount := field amount;
     Due_Date := field due;
     Status := CStr "Open";
     Last_Payment_Date := field last_payment;
     Amt_Paid := field amt_paid;
     Amt_Due := field amt_due |}.

(** Paid in full two weeks late. *)
Definition paid_late : Row cell :=
  csv_row "Invoice" "1001" "01/01/2025" "01/15/2025"
          "$1,000.00" "$1,000.00" "$0.00".

(** Nothing paid, due on New Year's Day. *)
Definition unpaid : Row cell :=
  csv_row "Invoice" "1002" "01/01/2025" "" "$500.00" "$0.00" "$500.00".

(** Nothing due, and no payment date on file. *)
Definition settled_undated : Row cell :=
  csv_row "Invoice" "1003" "01/01/2025" "" "$250.00" "$250.00" "$0.00".

(** Outstanding, its due date unreadable. *)
Definition unpaid_undated : Row cell :=
  csv_row "Invoice" "1004" "n/a" "" "$80.00" "$0.00" "$80.00".

(** A partial payment: a payment date and an amount still due. *)
Definition part_paid : Row cell :=
  csv_row "Invoice" "1005" "01/01/2025" "01/15/2025"
          "$1,000.00" "$500.00" "$500.00".

(** An invoice overpaid, its amount due in accounting notation. *)
Definition overpaid : Row cell :=
  csv_row "Invoice" "1006" "01/01/2025" "01/15/2025"
          "$100.00" "$105.00" "($5.00)".

(** A row that is neither an invoice nor a credit memo. *)
Definition payment : Row cell :=
  csv_row "Payment" "2001" "" "" "$100.00" "" "".

Definition credit_memo : Row cell :=
  csv_row "Credit Memo" "3001" "" "" "($40.00)" "" "".

(** Outstanding, due three weeks before the cutoff date. *)
Definition unpaid_june : Row cell :=
  csv_row "Invoice" "1007" "06/01/2025" "" "$70.00" "$0.00" "$70.00".




(** Midnight of 2025-06-23 and of 2025-08-01, in seconds. *)
Definition clock_june_23 : Z := 86400 * days_from_civil 2025 6 23.
Definition clock_august_1 : Z := 86400 * days_from_civil 2025 8 1.

End Samples.

(* ================================================================== *)
(** * Column reductions *)
(* ================================================================== *)

Module Reductions.

(** The values of a column of day counts that are not missing. *)
Fixpoint present_days (col : list (option Z)) : list Z :=
  match col with
  | [] => []
  | Some d :: col' => d :: present_days col'
  | None :: col' => present_days col'
  end.

Definition Zsum (l : list Z) : Z := fold_right Z.add 0 l.

(** [Series.mean()]: missing values are skipped; the mean of no value
    is NaN. *)
Definition mean_days (col : list (option Z)) : pyfloat :=
  match present_days col with
  | [] => NaN
  | d :: ds =>
      Fin (inject_Z (Zsum (d :: ds)) /
           inject_Z (Z.of_nat (List.length (d :: ds))))
  end.

(** [Series.max()]: missing values are skipped; the maximum of no value
    is NaN. *)
Definition max_days (col : list (option Z)) : pyfloat :=
  match present_days col with
  | [] => NaN
  | d :: ds => Fin (inject_Z (fold_right Z.max d ds))
  end.

(** [len(df[df[col] > k])] and [len(df[df[col] <= k])]: a missing value
    passes neither test. *)
Definition gt_days (k : Z) (d : option Z) : bool :=
  match d with
  | Some x => (k <? x)%Z
  | None => false
  end.

Definition le_days (k : Z) (d : option Z) : bool :=
  match d with
  | Some x => (x <=? k)%Z
  | None => false
  end.

(** The code of a label in [pd.Categorical(categories=aging_order)]:
    its place in the order; a label that is no category sorts last. *)
Fixpoint index_of (b : string) (order : list string) : nat :=
  match order with
  | [] => 0
  | c :: order' => if String.eqb b c then 0 else S (index_of b order')
  end.

(** A bucket column entry that carries a given label. *)
Definition with_label (c : string) (b : option string) : bool :=
  match b with
  | Some x => String.eqb x c
  | None => false
  end.

Definition bucket_rank (b : string) : nat :=
  index_of b FinalExport.aging_order.

End Reductions.
Export Reductions.

(* ================================================================== *)
(** * Worksheets of [export_aging_buckets] *)
(* ================================================================== *)

Module ExportSheets.

Local Open Scope string_scope.

(** The name of the worksheet of a bucket. *)
Definition sheet_name (bucket_name : string) : string :=
  let s := str_replace "-" "_" (str_replace "+" "_Plus" bucket_name) in
  if (31 <? String.length s)%nat then substring 0 31 s else s.

(** A row of the summary worksheet. *)
Record SummaryRow : Type := mkSummaryRow {
  Aging_Bucket : string;
  Invoice_Count : Z;
  Total_Amount_USD : pyfloat;
  Total_Due_USD : pyfloat;
  Total_Paid_USD : pyfloat;
  Avg_Days_Past_Due : pyfloat;
  Max_Days_Past_Due : pyfloat;
  Percentage_of_Total : pyfloat
}.

Definition column (col : Row pyfloat -> pyfloat)
  (rows : list ExportAgingBuckets.InvoiceRow) : list pyfloat :=
  map (fun r => col (ExportAgingBuckets.base r)) rows.

(** The entry of [summary_data] for a bucket that has invoices. *)
Definition bucket_row (n_invoices : nat)
  (b : string * list ExportAgingBuckets.InvoiceRow) : SummaryRow :=
  let bucket_data := snd b in
  {| Aging_Bucket := fst b;
     Invoice_Count := Z.of_nat (List.length bucket_data);
     Total_Amount_USD := fsum (column Amount bucket_data);
     Total_Due_USD := fsum (column Amt_Due bucket_data);
     Total_Paid_USD := fsum (column Amt_Paid bucket_data);
     Avg_Days_Past_Due :=
       mean_days (map ExportAgingBuckets.Days_Past_Due bucket_data);
     Max_Days_Past_Due :=
       max_days (map ExportAgingBuckets.Days_Past_Due bucket_data);
     Percentage_of_Total :=
       fmul (fdiv (Fin (inject_Z (Z.of_nat (List.length bucket_data))))
                  (Fin (inject_Z (Z.of_nat n_invoices))))
            (Fin 100) |}.

Definition summary_data (n_invoices : nat)
  (aging_buckets : list (string * list ExportAgingBuckets.InvoiceRow))
  : list SummaryRow :=
  map (bucket_row n_invoices)
      (filter (fun b => (0 <? List.length (snd b))%nat) aging_buckets).

Definition totals_row
  (df_invoices : list ExportAgingBuckets.InvoiceRow)
  (rows : list SummaryRow) : SummaryRow :=
  {| Aging_Bucket := "TOTAL";
     Invoice_Count := Zsum (map Invoice_Count rows);
     Total_Amount_USD := fsum (map Total_Amount_USD rows);
     Total_Due_USD := fsum (map Total_Due_USD rows);
     Total_Paid_USD := fsum (map Total_Paid_USD rows);
     Avg_Days_Past_Due :=
       mean_days (map ExportAgingBuckets.Days_Past_Due df_invoices);
     Max_Days_Past_Due :=
       max_days (map ExportAgingBuckets.Days_Past_Due df_invoices);
     Percentage_of_Total := Fin 100 |}.

(** The rounding of the numeric columns of the summary. *)
Definition round_row (r : SummaryRow) : SummaryRow :=
  {| Aging_Bucket := Aging_Bucket r;
     Invoice_Count := Invoice_Count r;
     Total_Amount_USD := fround2 (Total_Amount_USD r);
     Total_Due_USD := fround2 (Total_Due_USD r);
     Total_Paid_USD := fround2 (Total_Paid_USD r);
     Avg_Days_Past_Due := fround2 (Avg_Days_Past_Due r);
     Max_Days_Past_Due := Max_Days_Past_Due r;
     Percentage_of_Total := fround2 (Percentage_of_Total r) |}.

(** The summary worksheet.  When no bucket has an invoice the frame
    built from [summary_data] has no column, the totals cannot be
    read off it and the export stops on a [KeyError]: [None]. *)
Definition summary_worksheet
  (df_invoices : list ExportAgingBuckets.InvoiceRow)
  (aging_buckets : list (string * list ExportAgingBuckets.InvoiceRow))
  : option (list SummaryRow) :=
  match summary_data (List.length df_invoices) aging_buckets with
  | [] => None
  | rows => Some (map round_row (rows ++ [totals_row df_invoices rows]))
  end.

Section Routine.

Variable to_datetime : cell -> option Z.

(** [df_invoices] with its aging columns. *)
Definition df_invoices (today : Z) (raw : list (Row cell))
  : list ExportAgingBuckets.InvoiceRow :=
  map (ExportAgingBuckets.invoice_row to_datetime today)
      (filter (type_is "Invoice") (map (map_monetary normalize) raw)).

(** The summary worksheet of a run with [include_summary]. *)
Definition export_summary (today : Z) (raw : list (Row cell))
  : option (list SummaryRow) :=
  summary_worksheet
    (df_invoices today raw)
    (ExportAgingBuckets.export_aging_buckets to_datetime today raw).

(** [aging_breakdown] of the result: the size of each bucket. *)
Definition aging_breakdown (today : Z) (raw : list (Row cell))
  : list (string * Z) :=
  map (fun b => (fst b, Z.of_nat (List.length (snd b))))
      (ExportAgingBuckets.export_aging_buckets to_datetime today raw).

End Routine.

End ExportSheets.

(* ================================================================== *)
(** * Reports of [CorrectedFactoringAnalyzer] *)
(* ================================================================== *)

Module CorrectedReports.

Module CFA := CorrectedFactoringAnalyzer.

Local Open Scope string_scope.

Definition amount_of (col : Row pyfloat -> pyfloat) (a : CFA.AgedRow)
  : pyfloat :=
  col (CFA.base (CFA.invoice a)).

Definition bucket_rows (l : string) (rows : list CFA.AgedRow)
  : list CFA.AgedRow :=
  filter (fun r =>
            match CFA.Aging_Bucket r with
            | Some b => String.eqb b l
            | None => false
            end) rows.

(** A row of [paid_aging_summary]. *)
Record PaidRow : Type := mkPaidRow {
  Bucket : string;
  Invoice_Count : Z;
  Total_Amount : pyfloat;
  Avg_Days_Late : pyfloat;
  Max_Days_Late : pyfloat;
  Percentage : pyfloat
}.

Definition paid_row_of (n_paid : nat) (rows : list CFA.AgedRow)
  (l : string) : PaidRow :=
  let g := bucket_rows l rows in
  let count := count_notna (fun r => Number (CFA.base (CFA.invoice r))) g in
  {| Bucket := l;
     Invoice_Count := count;
     Total_Amount := fround2 (fsum (map (amount_of Amount) g));
     Avg_Days_Late := fround2 (mean_days (map CFA.Aging_Delay g));
     Max_Days_Late := fround2 (max_days (map CFA.Aging_Delay g));
     Percentage :=
       fround2 (fmul (fdiv (Fin (inject_Z count))
                           (Fin (inject_Z (Z.of_nat n_paid))))
                     (Fin 100)) |}.

(** [paid_invoices_aging_analysis]: nothing without a paid invoice,
    else one row for each category of the bucket column. *)
Definition paid_invoices_aging_analysis (a : CFA.t)
  : option (list PaidRow) :=
  match CFA.df_paid_invoices a with
  | [] => None
  | rows =>
      Some (map (paid_row_of (List.length rows) rows) paid_labels)
  end.

(** [early_payments] and [late_payments] of the same report. *)
Definition early_payments (a : CFA.t) : nat :=
  List.length (filter (fun r => le_days 0 (CFA.Aging_Delay r))
                      (CFA.df_paid_invoices a)).

Definition late_payments (a : CFA.t) : nat :=
  List.length (filter (fun r => gt_days 0 (CFA.Aging_Delay r))
                      (CFA.df_paid_invoices a)).

(** The dictionary [executive_summary] returns. *)
Record Summary : Type := mkSummary {
  total_outstanding : pyfloat;
  collection_rate : pyfloat;
  avg_payment_delay : pyfloat;
  risk_percentage : pyfloat
}.

Definition executive_summary (a : CFA.t) : Summary :=
  let total_billed :=
    fsum (map (fun r => Amount (CFA.base r)) (CFA.df_invoice a)) in
  let total_paid :=
    fsum (map (fun r => Amt_Paid (CFA.base r)) (CFA.df_invoice a)) in
  let total_out :=
    match CFA.df_outstanding_invoices a with
    | [] => Fin 0
    | rows => fsum (map (amount_of Amt_Due) rows)
    end in
  let rate :=
    if fgt0 total_billed
    then fmul (fdiv total_paid total_billed) (Fin 100)
    else Fin 0 in
  let delay :=
    match CFA.df_paid_invoices a with
    | [] => Fin 0
    | rows => mean_days (map CFA.Aging_Delay rows)
    end in
  let risk :=
    match CFA.df_outstanding_invoices a with
    | [] => Fin 0
    | rows =>
        let overdue_90_plus :=
          filter (fun r => gt_days 90 (CFA.Aging_Delay r)) rows in
        let high_risk_amount :=
          fsum (map (amount_of Amt_Due) overdue_90_plus) in
        if fgt0 total_out
        then fmul (fdiv high_risk_amount total_out) (Fin 100)
        else Fin 0
    end in
  {| total_outstanding := total_out;
     collection_rate := rate;
     avg_payment_delay := delay;
     risk_percentage := risk |}.

End CorrectedReports.

(* ================================================================== *)
(** * [FactoringAnalyzer.executive_summary] *)
(* ================================================================== *)

Module AnalyzerReports.

Module FA := FactoringAnalyzer.

(** The dictionary [executive_summary] returns. *)
Record Summary : Type := mkSummary {
  total_outstanding : pyfloat;
  total_invoices : Z;
  avg_days_past_due : pyfloat;
  collection_rate : pyfloat;
  risk_percentage : pyfloat
}.

Definition executive_summary (a : FA.t) : Summary :=
  let df := FA.df a in
  let total_out := fsum (map (fun r => Amt_Due (FA.base r)) df) in
  let high_risk_amount :=
    fsum (map (fun r => Amt_Due (FA.base r))
              (filter (fun r => gt_days 90 (FA.Days_Past_Due r)) df)) in
  let total_billed := fsum (map (fun r => Amount (FA.base r)) df) in
  let total_collected := fsum (map (fun r => Amt_Paid (FA.base r)) df) in
  {| total_outstanding := total_out;
     total_invoices := Z.of_nat (List.length df);
     avg_days_past_due := mean_days (map FA.Days_Past_Due df);
     collection_rate := fmul (fdiv total_collected total_billed) (Fin 100);
     risk_percentage := fmul (fdiv high_risk_amount total_out) (Fin 100) |}.

End AnalyzerReports.

(* ================================================================== *)
(** * Properties *)
(* ================================================================== *)

Import SpecClassifier.

(** ** The aging buckets *)

Section AgingBuckets.

Import FinalExport.

Local Open Scope string_scope.

Lemma create_aging_bucket_spec (ty : invoice_type) (days : Z) :
  create_aging_bucket days ty = spec_bucket ty days.
Proof.
  unfold create_aging_bucket, spec_bucket.
  destruct (Z.leb_spec days 0); [reflexivity |].
  destruct (Z.leb_spec days 30).
  { replace (1 <=? days)%Z with true by (symmetry; apply Z.leb_le; lia).
    reflexivity. }
  replace (1 <=? days)%Z with true by (symmetry; apply Z.leb_le; lia).
  cbn [andb].
  destruct (Z.leb_spec days 60).
  { replace (31 <=? days)%Z with true by (symmetry; apply Z.leb_le; lia).
    reflexivity. }
  replace (31 <=? days)%Z with true by (symmetry; apply Z.leb_le; lia).
  cbn [andb].
  destruct (Z.leb_spec days 90).
  { replace (61 <=? days)%Z with true by (symmetry; apply Z.leb_le; lia).
    reflexivity. }
  replace (61 <=? days)%Z with true by (symmetry; apply Z.leb_le; lia).
  reflexivity.
Qed.

Lemma pd_cut_spec (ty : invoice_type) (days : Z) :
  pd_cut aging_bins (labels_of ty) (Some days) = Some (spec_bucket ty days).
Proof.
  unfold spec_bucket, pd_cut, aging_bins.
  destruct ty; cbn [labels_of paid_labels outstanding_labels cut_bins
                    edge_ltb leb_edge andb];
    destruct (Z.leb_spec days 0), (Z.leb_spec days 30),
             (Z.leb_spec days 60), (Z.leb_spec days 90);
    try lia;
    repeat match goal with
           | |- context [(?a <? days)%Z] =>
               destruct (Z.ltb_spec a days); try lia
           end;
    reflexivity.
Qed.

Lemma pd_cut_option (ty : invoice_type) (d : option Z) :
  pd_cut aging_bins (labels_of ty) d = option_map (spec_bucket ty) d.
Proof.
  destruct d as [days |]; [apply pd_cut_spec | reflexivity].
Qed.

Lemma spec_bucket_label (ty : invoice_type) (days : Z) :
  In (spec_bucket ty days) (labels_of ty).
Proof.
  unfold spec_bucket.
  destruct ty; cbn [labels_of paid_labels outstanding_labels];
    destruct (days <=? 0)%Z, (days <=? 30)%Z, (days <=? 60)%Z,
             (days <=? 90)%Z; simpl; tauto.
Qed.

(** The table of section 4.2, range by range. *)
Lemma spec_bucket_ranges (ty : invoice_type) (days : Z) :
  (days <= 0 ->
   spec_bucket ty days =
   match ty with paid => "On-time" | outstanding => "Current" end) /\
  (1 <= days <= 30 -> spec_bucket ty days = "1-30 Days") /\
  (31 <= days <= 60 -> spec_bucket ty days = "31-60 Days") /\
  (61 <= days <= 90 -> spec_bucket ty days = "61-90 Days") /\
  (90 < days -> spec_bucket ty days = "90+ Days").
Proof.
  unfold spec_bucket.
  destruct (Z.leb_spec days 0), (Z.leb_spec days 30),
           (Z.leb_spec days 60), (Z.leb_spec days 90);
    repeat split; intros; try lia; reflexivity.
Qed.

(** C2. Every classified record carries one of the five labels of its
    mode, and the label is the one the table of section 4.2 gives for
    its delay: [create_aging_bucket] and the bins of [pd.cut] both
    compute that table, in [final_export], in
    [CorrectedFactoringAnalyzer.prepare_data] and in
    [FactoringAnalyzer.prepare_data]; the boundary values 0, 1, 30, 31,
    60, 61, 90 and 91 fall as the table says. *)
Theorem aging_bucket_follows_table :
  (forall ty days,
      create_aging_bucket days ty = spec_bucket ty days /\
      pd_cut aging_bins (labels_of ty) (Some days)
      = Some (spec_bucket ty days) /\
      In (spec_bucket ty days) (labels_of ty)) /\
  (forall ty days,
      (days <= 0 ->
       create_aging_bucket days ty =
       match ty with paid => "On-time" | outstanding => "Current" end) /\
      (1 <= days <= 30 -> create_aging_bucket days ty = "1-30 Days") /\
      (31 <= days <= 60 -> create_aging_bucket days ty = "31-60 Days") /\
      (61 <= days <= 90 -> create_aging_bucket days ty = "61-90 Days") /\
      (90 < days -> create_aging_bucket days ty = "90+ Days")) /\
  (forall ty, List.length (labels_of ty) = 5%nat /\ NoDup (labels_of ty)) /\
  (forall to_datetime df ty,
      Forall (fun r =>
                Aging_Bucket r = spec_bucket ty (Aging_Delay_Days r) /\
                In (Aging_Bucket r) (labels_of ty))
             (calculate_aging_correctly to_datetime df ty)) /\
  (forall raw,
      Forall (fun r =>
                CorrectedFactoringAnalyzer.Aging_Bucket r
                = option_map (spec_bucket paid)
                             (CorrectedFactoringAnalyzer.Aging_Delay r))
             (CorrectedFactoringAnalyzer.df_paid_invoices
                (CorrectedFactoringAnalyzer.prepare_data raw)) /\
      Forall (fun r =>
                CorrectedFactoringAnalyzer.Aging_Bucket r
                = option_map (spec_bucket outstanding)
                             (CorrectedFactoringAnalyzer.Aging_Delay r))
             (CorrectedFactoringAnalyzer.df_outstanding_invoices
                (CorrectedFactoringAnalyzer.prepare_data raw))) /\
  (forall to_datetime now raw,
      Forall (fun r =>
                FactoringAnalyzer.Aging_Bucket r
                = option_map (spec_bucket outstanding)
                             (FactoringAnalyzer.Days_Past_Due r))
             (FactoringAnalyzer.df
                (FactoringAnalyzer.prepare_data to_datetime now raw))) /\
  map (fun d => create_aging_bucket d paid) [0; 1; 30; 31; 60; 61; 90; 91]
  = ["On-time"; "1-30 Days"; "1-30 Days"; "31-60 Days"; "31-60 Days";
     "61-90 Days"; "61-90 Days"; "90+ Days"] /\
  map (fun d => create_aging_bucket d outstanding)
      [0; 1; 30; 31; 60; 61; 90; 91]
  = ["Current"; "1-30 Days"; "1-30 Days"; "31-60 Days"; "31-60 Days";
     "61-90 Days"; "61-90 Days"; "90+ Days"] /\
  map (pd_cut aging_bins paid_labels)
      [Some 0; Some 1; Some 30; Some 31; Some 60; Some 61; Some 90; Some 91]
  = map Some ["On-time"; "1-30 Days"; "1-30 Days"; "31-60 Days";
              "31-60 Days"; "61-90 Days"; "61-90 Days"; "90+ Days"].
Proof.
  split; [| split; [| split; [| split; [| split; [| split; [| split;
    [| split]]]]]]].
  - intros ty days. split; [apply create_aging_bucket_spec |].
    split; [apply pd_cut_spec | apply spec_bucket_label].
  - intros ty days. rewrite create_aging_bucket_spec.
    apply spec_bucket_ranges.
  - intros ty. split; [destruct ty; reflexivity |].
    destruct ty; cbn [labels_of paid_labels outstanding_labels];
      repeat constructor; simpl; intuition discriminate.
  - intros to_datetime df ty. unfold calculate_aging_correctly.
    apply Forall_forall. intros r Hr. apply in_map_iff in Hr.
    destruct Hr as [x [<- _]]. cbn [aged_row Aging_Bucket Aging_Delay_Days].
    rewrite create_aging_bucket_spec.
    split; [reflexivity | apply spec_bucket_label].
  - intros raw. split; apply Forall_forall; intros r Hr;
      cbn [CorrectedFactoringAnalyzer.prepare_data
           CorrectedFactoringAnalyzer.df_paid_invoices
           CorrectedFactoringAnalyzer.df_outstanding_invoices] in Hr;
      apply in_map_iff in Hr; destruct Hr as [x [<- _]].
    + apply (pd_cut_option paid).
    + apply (pd_cut_option outstanding).
  - intros to_datetime now raw. apply Forall_forall. intros r Hr.
    cbn [FactoringAnalyzer.prepare_data FactoringAnalyzer.df] in Hr.
    apply in_map_iff in Hr. destruct Hr as [x [<- _]].
    apply (pd_cut_option outstanding).
  - reflexivity.
  - reflexivity.
  - reflexivity.
Qed.

End AgingBuckets.

(** ** Aging delay and missing dates *)

Section AgingDelay.

Import FinalExport.

Local Open Scope string_scope.

(** The scenarios of the specification: fourteen days late, and 173
    days past due at the cutoff date. *)
Example scenario_paid_late :
  map (fun r => (Aging_Delay_Days r, Aging_Bucket r))
      (raw_paid_invoices (final_export to_datetime_mdY 0 [Samples.paid_late]))
  = [(14, "1-30 Days")].
Proof. vm_compute. reflexivity. Qed.

Example scenario_unpaid :
  map (fun r => (Aging_Delay_Days r, Aging_Bucket r))
      (raw_outstanding_invoices
         (final_export to_datetime_mdY 0 [Samples.unpaid]))
  = [(173, "90+ Days")].
Proof. vm_compute. reflexivity. Qed.

Lemma aged_row_delay (to_datetime : cell -> option Z)
  (ty : invoice_type) (r : Row pyfloat) :
  Aging_Delay_Days (aged_row to_datetime ty r)
  = fillna0 (spec_delay cutoff_date ty (to_datetime (Due_Date r))
                        (to_datetime (Last_Payment_Date r))).
Proof. destruct ty; reflexivity. Qed.

Lemma aged_row_bucket (to_datetime : cell -> option Z)
  (ty : invoice_type) (r : Row pyfloat) :
  Aging_Bucket (aged_row to_datetime ty r)
  = spec_bucket ty (Aging_Delay_Days (aged_row to_datetime ty r)).
Proof. cbn [aged_row Aging_Bucket Aging_Delay_Days].
       apply create_aging_bucket_spec. Qed.

Lemma corrected_paid_rows (raw : list (Row cell))
  (a : CorrectedFactoringAnalyzer.AgedRow) :
  In a (CorrectedFactoringAnalyzer.df_paid_invoices
          (CorrectedFactoringAnalyzer.prepare_data raw)) ->
  exists x,
    a = CorrectedFactoringAnalyzer.paid_row x /\
    In x (CorrectedFactoringAnalyzer.df_invoice
            (CorrectedFactoringAnalyzer.prepare_data raw)) /\
    CorrectedFactoringAnalyzer.is_paid x = true.
Proof.
  cbn [CorrectedFactoringAnalyzer.prepare_data
       CorrectedFactoringAnalyzer.df_paid_invoices
       CorrectedFactoringAnalyzer.df_invoice].
  intros H. apply in_map_iff in H. destruct H as [x [<- Hx]].
  apply filter_In in Hx. destruct Hx as [Hx Hp].
  exists x. auto.
Qed.

Lemma corrected_outstanding_rows (raw : list (Row cell))
  (a : CorrectedFactoringAnalyzer.AgedRow) :
  In a (CorrectedFactoringAnalyzer.df_outstanding_invoices
          (CorrectedFactoringAnalyzer.prepare_data raw)) ->
  exists x,
    a = CorrectedFactoringAnalyzer.outstanding_row x /\
    In x (CorrectedFactoringAnalyzer.df_invoice
            (CorrectedFactoringAnalyzer.prepare_data raw)) /\
    CorrectedFactoringAnalyzer.is_paid x = false.
Proof.
  cbn [CorrectedFactoringAnalyzer.prepare_data
       CorrectedFactoringAnalyzer.df_outstanding_invoices
       CorrectedFactoringAnalyzer.df_invoice].
  intros H. apply in_map_iff in H. destruct H as [x [<- Hx]].
  apply filter_In in Hx. destruct Hx as [Hx Hp].
  apply negb_true_iff in Hp. exists x. auto.
Qed.

(** C1, as the code has it.  In [calculate_aging_correctly] a record
    whose required reference date is missing or unparseable is kept in
    its population, [fillna(0)] gives it an aging delay of 0 and it
    falls in the bucket On-time (paid) or Current (outstanding).  In
    [CorrectedFactoringAnalyzer.prepare_data] a record without a
    readable due date stays in its population with neither a delay nor
    a bucket, and the two populations together still count every
    invoice: no record is set aside. *)
Theorem missing_date_handling :
  (forall (to_datetime : cell -> option Z) ty df r,
      In r df ->
      spec_delay cutoff_date ty (to_datetime (Due_Date r))
                 (to_datetime (Last_Payment_Date r)) = None ->
      In (aged_row to_datetime ty r)
         (calculate_aging_correctly to_datetime df ty) /\
      Aging_Delay_Days (aged_row to_datetime ty r) = 0 /\
      Aging_Bucket (aged_row to_datetime ty r)
      = match ty with paid => "On-time" | outstanding => "Current" end) /\
  (forall raw a,
      In a (CorrectedFactoringAnalyzer.df_paid_invoices
              (CorrectedFactoringAnalyzer.prepare_data raw) ++
            CorrectedFactoringAnalyzer.df_outstanding_invoices
              (CorrectedFactoringAnalyzer.prepare_data raw)) ->
      CorrectedFactoringAnalyzer.Due_Date_ts
        (CorrectedFactoringAnalyzer.invoice a) = None ->
      CorrectedFactoringAnalyzer.Aging_Delay a = None /\
      CorrectedFactoringAnalyzer.Aging_Bucket a = None) /\
  (forall raw,
      (List.length (CorrectedFactoringAnalyzer.df_paid_invoices
                      (CorrectedFactoringAnalyzer.prepare_data raw)) +
       List.length (CorrectedFactoringAnalyzer.df_outstanding_invoices
                      (CorrectedFactoringAnalyzer.prepare_data raw)))%nat
      = List.length (CorrectedFactoringAnalyzer.df_invoice
                       (CorrectedFactoringAnalyzer.prepare_data raw))).
Proof.
  split; [| split].
  - intros to_datetime ty df r Hin Hnone. split.
    { unfold calculate_aging_correctly. apply in_map. exact Hin. }
    assert (Hd : Aging_Delay_Days (aged_row to_datetime ty r) = 0).
    { rewrite aged_row_delay, Hnone. reflexivity. }
    split; [exact Hd |].
    rewrite aged_row_bucket, Hd. destruct ty; reflexivity.
  - intros raw a Hin Hdue. apply in_app_or in Hin. destruct Hin as [H | H].
    + apply corrected_paid_rows in H. destruct H as [x [-> _]].
      cbn [CorrectedFactoringAnalyzer.paid_row
           CorrectedFactoringAnalyzer.invoice
           CorrectedFactoringAnalyzer.Aging_Delay
           CorrectedFactoringAnalyzer.Aging_Bucket] in Hdue |- *.
      rewrite Hdue. unfold days_between.
      destruct (CorrectedFactoringAnalyzer.Last_Payment_Date_ts x);
        split; reflexivity.
    + apply corrected_outstanding_rows in H. destruct H as [x [-> _]].
      cbn [CorrectedFactoringAnalyzer.outstanding_row
           CorrectedFactoringAnalyzer.invoice
           CorrectedFactoringAnalyzer.Aging_Delay
           CorrectedFactoringAnalyzer.Aging_Bucket] in Hdue |- *.
      rewrite Hdue. split; reflexivity.
  - intros raw.
    cbn [CorrectedFactoringAnalyzer.prepare_data
         CorrectedFactoringAnalyzer.df_paid_invoices
         CorrectedFactoringAnalyzer.df_outstanding_invoices
         CorrectedFactoringAnalyzer.df_invoice].
    rewrite !length_map.
    generalize (filter (type_is "Invoice")
                  (map (map_monetary CorrectedFactoringAnalyzer.normalize)
                       raw)).
    intros l. induction l as [| x l IH]; [reflexivity |].
    cbn [map filter].
    destruct (CorrectedFactoringAnalyzer.is_paid
                (CorrectedFactoringAnalyzer.invoice_row x));
      cbn [negb List.length]; rewrite <- IH; lia.
Qed.

(** The theorem at an invoice with nothing due and no payment date, and
    at an outstanding invoice whose due date does not parse. *)
Lemma missing_date_handling_witness :
  (let r := map_monetary normalize Samples.settled_undated in
   Aging_Delay_Days (aged_row to_datetime_mdY paid r) = 0 /\
   Aging_Bucket (aged_row to_datetime_mdY paid r) = "On-time") /\
  (let a := CorrectedFactoringAnalyzer.outstanding_row
              (CorrectedFactoringAnalyzer.invoice_row
                 (map_monetary CorrectedFactoringAnalyzer.normalize
                               Samples.unpaid_undated)) in
   CorrectedFactoringAnalyzer.Aging_Delay a = None /\
   CorrectedFactoringAnalyzer.Aging_Bucket a = None).
Proof.
  destruct missing_date_handling as [Hexport [Hcorrected _]].
  split.
  - cbv zeta.
    destruct (Hexport to_datetime_mdY paid
                [map_monetary normalize Samples.settled_undated]
                (map_monetary normalize Samples.settled_undated))
      as [_ H].
    + left. reflexivity.
    + reflexivity.
    + exact H.
  - cbv zeta.
    apply (Hcorrected [Samples.unpaid_undated]).
    + apply in_or_app. right. left. reflexivity.
    + reflexivity.
Defined.

(** C1 as stated fails in [final_export]: an invoice with nothing due
    and no payment date is unclassifiable for the specification, yet it
    is given a delay of 0 and counted in the bucket On-time; an
    outstanding invoice whose due date does not parse lands in
    Current. *)
Lemma missing_date_is_zeroed :
  to_datetime_mdY (Last_Payment_Date Samples.settled_undated) = None /\
  spec_classify cutoff_date paid
    (to_datetime_mdY (Due_Date Samples.settled_undated))
    (to_datetime_mdY (Last_Payment_Date Samples.settled_undated))
  = Unclassifiable /\
  map (fun r => (Aging_Delay_Days r, Aging_Bucket r))
      (raw_paid_invoices
         (final_export to_datetime_mdY 0 [Samples.settled_undated]))
  = [(0, "On-time")] /\
  paid_count (final_export to_datetime_mdY 0 [Samples.settled_undated])
  = Some [("On-time", 1)] /\
  to_datetime_mdY (Due_Date Samples.unpaid_undated) = None /\
  map (fun r => (Aging_Delay_Days r, Aging_Bucket r))
      (raw_outstanding_invoices
         (final_export to_datetime_mdY 0 [Samples.unpaid_undated]))
  = [(0, "Current")] /\
  out_count (final_export to_datetime_mdY 0 [Samples.unpaid_undated])
  = Some [("Current", 1)].
Proof. vm_compute. repeat split. Qed.




End AgingDelay.

(** ** The clock *)

Section Clock.

Import FinalExport.

Local Open Scope string_scope.

Lemma days_since_same_day (now1 now2 : Z) (d : option Z) :
  now1 / 86400 = now2 / 86400 -> days_since now1 d = days_since now2 d.
Proof.
  intros H. destruct d as [x |]; [| reflexivity]. unfold days_since.
  replace (now1 - 86400 * x) with (now1 + (- x) * 86400) by ring.
  replace (now2 - 86400 * x) with (now2 + (- x) * 86400) by ring.
  rewrite !Z.div_add by lia. rewrite H. reflexivity.
Qed.

Lemma analysis_row_same_day (to_datetime : cell -> option Z)
  (now1 now2 : Z) (r : Row pyfloat) :
  now1 / 86400 = now2 / 86400 ->
  FactoringAnalyzer.analysis_row to_datetime now1 r
  = FactoringAnalyzer.analysis_row to_datetime now2 r.
Proof.
  intros H. unfold FactoringAnalyzer.analysis_row.
  rewrite (days_since_same_day now1 now2 (to_datetime (Due_Date r)) H).
  rewrite (days_since_same_day now1 now2 (to_datetime (Transaction_Date r)) H).
  reflexivity.
Qed.

Lemma invoice_row_same_day (to_datetime : cell -> option Z)
  (now1 now2 : Z) (r : Row pyfloat) :
  now1 / 86400 = now2 / 86400 ->
  ExportAgingBuckets.invoice_row to_datetime now1 r
  = ExportAgingBuckets.invoice_row to_datetime now2 r.
Proof.
  intros H. unfold ExportAgingBuckets.invoice_row.
  rewrite (days_since_same_day now1 now2 (to_datetime (Due_Date r)) H).
  rewrite (days_since_same_day now1 now2 (to_datetime (Transaction_Date r)) H).
  reflexivity.
Qed.

(** C4, as the code has it.  The workbook of [final_export] does not
    depend on the time of the run, although the analyzer it builds reads
    the clock: its tables come from [df_invoice], [df_credit_memo] and
    [df_full], which are the same at any time, and the aging uses the
    fixed date 2025-06-23.  The aging columns of
    [FactoringAnalyzer.prepare_data] and the buckets of
    [export_aging_buckets] are computed from [datetime.now()]: two runs
    on the same input agree when they read the clock on the same day. *)
Theorem clock_dependence :
  (forall (to_datetime : cell -> option Z) now1 now2 raw,
      final_export to_datetime now1 raw = final_export to_datetime now2 raw) /\
  (forall (to_datetime : cell -> option Z) now1 now2 raw,
      FactoringAnalyzer.df_invoice
        (FactoringAnalyzer.prepare_data to_datetime now1 raw)
      = FactoringAnalyzer.df_invoice
          (FactoringAnalyzer.prepare_data to_datetime now2 raw) /\
      FactoringAnalyzer.df_credit_memo
        (FactoringAnalyzer.prepare_data to_datetime now1 raw)
      = FactoringAnalyzer.df_credit_memo
          (FactoringAnalyzer.prepare_data to_datetime now2 raw) /\
      FactoringAnalyzer.df_full
        (FactoringAnalyzer.prepare_data to_datetime now1 raw)
      = FactoringAnalyzer.df_full
          (FactoringAnalyzer.prepare_data to_datetime now2 raw)) /\
  (forall (to_datetime : cell -> option Z) now1 now2 raw,
      now1 / 86400 = now2 / 86400 ->
      FactoringAnalyzer.prepare_data to_datetime now1 raw
      = FactoringAnalyzer.prepare_data to_datetime now2 raw /\
      ExportAgingBuckets.export_aging_buckets to_datetime now1 raw
      = ExportAgingBuckets.export_aging_buckets to_datetime now2 raw).
Proof.
  split; [| split].
  - intros. reflexivity.
  - intros. repeat split; reflexivity.
  - intros to_datetime now1 now2 raw H. split.
    + unfold FactoringAnalyzer.prepare_data. f_equal.
      apply map_ext. intros r. apply analysis_row_same_day. exact H.
    + unfold ExportAgingBuckets.export_aging_buckets.
      apply map_ext. intros bucket. f_equal. f_equal.
      apply map_ext. intros r. apply invoice_row_same_day. exact H.
Qed.

(** The theorem at noon and in the evening of 2025-06-23. *)
Lemma clock_dependence_witness :
  FactoringAnalyzer.prepare_data to_datetime_mdY
    (Samples.clock_june_23 + 43200) [Samples.unpaid_june]
  = FactoringAnalyzer.prepare_data to_datetime_mdY
      (Samples.clock_june_23 + 72000) [Samples.unpaid_june].
Proof.
  destruct clock_dependence as [_ [_ H]].
  apply (H to_datetime_mdY (Samples.clock_june_23 + 43200)
           (Samples.clock_june_23 + 72000) [Samples.unpaid_june]).
  reflexivity.
Defined.

(** C4 as stated fails where the clock is read: the same file, run on
    2025-06-23 and on 2025-08-01, puts the same invoice in two
    different buckets, in the counts of [FactoringAnalyzer] and in the
    sheets of [export_aging_buckets]. *)
Lemma aging_depends_on_the_clock :
  FactoringAnalyzer.aging_counts
    (FactoringAnalyzer.prepare_data to_datetime_mdY Samples.clock_june_23
                                    [Samples.unpaid_june])
  = [("Current", 0); ("1-30 Days", 1); ("31-60 Days", 0);
     ("61-90 Days", 0); ("90+ Days", 0)] /\
  FactoringAnalyzer.aging_counts
    (FactoringAnalyzer.prepare_data to_datetime_mdY Samples.clock_august_1
                                    [Samples.unpaid_june])
  = [("Current", 0); ("1-30 Days", 0); ("31-60 Days", 0);
     ("61-90 Days", 1); ("90+ Days", 0)] /\
  map (fun p => (fst p, List.length (snd p)))
      (ExportAgingBuckets.export_aging_buckets to_datetime_mdY
         Samples.clock_june_23 [Samples.unpaid_june])
  = [("Current", 0%nat); ("1-30 Days", 1%nat); ("31-60 Days", 0%nat);
     ("61-90 Days", 0%nat); ("90+ Days", 0%nat)] /\
  map (fun p => (fst p, List.length (snd p)))
      (ExportAgingBuckets.export_aging_buckets to_datetime_mdY
         Samples.clock_august_1 [Samples.unpaid_june])
  = [("Current", 0%nat); ("1-30 Days", 0%nat); ("31-60 Days", 0%nat);
     ("61-90 Days", 1%nat); ("90+ Days", 0%nat)].
Proof. vm_compute. repeat split. Qed.

End Clock.

(** ** Signs of a float *)

Section Signs.

Lemma Qle_bool_false (a b : Q) : Qle_bool a b = false -> (b < a)%Q.
Proof.
  intros H. apply Qnot_le_lt. intros Hle.
  apply Qle_bool_iff in Hle. congruence.
Qed.

Lemma Qeq_bool_false (a b : Q) : Qeq_bool a b = false -> ~ (a == b)%Q.
Proof. intros H Heq. apply Qeq_bool_iff in Heq. congruence. Qed.

Ltac q_cases :=
  repeat match goal with
         | |- context [Qeq_bool ?a ?b] =>
             let E := fresh "E" in
             destruct (Qeq_bool a b) eqn:E;
             [apply Qeq_bool_iff in E | apply Qeq_bool_false in E]
         | |- context [Qle_bool ?a ?b] =>
             let E := fresh "E" in
             destruct (Qle_bool a b) eqn:E;
             [apply Qle_bool_iff in E | apply Qle_bool_false in E]
         end;
  cbn [negb andb orb]; try reflexivity; try (exfalso; lra).

Lemma feq0_not_fgt0 (x : pyfloat) : feq0 x = true -> fgt0 x = false.
Proof.
  destruct x as [q | | |]; cbn [feq0 fgt0]; try discriminate.
  q_cases; intros; discriminate.
Qed.

Lemma fge0_split (x : pyfloat) : fge0 x = feq0 x || fgt0 x.
Proof.
  destruct x as [q | | |]; cbn [fge0 feq0 fgt0]; try reflexivity.
  q_cases.
Qed.

Lemma neither_is_negative (x : pyfloat) :
  isna x = false ->
  negb (feq0 x) && negb (fgt0 x) = flt0 x.
Proof.
  destruct x as [q | | |]; cbn [isna fge0 feq0 fgt0 flt0];
    try reflexivity; try discriminate.
  intros _. q_cases.
Qed.

Lemma flt0_not_fge0 (x : pyfloat) : flt0 x = true -> fge0 x = false.
Proof.
  destruct x as [q | | |]; cbn [flt0 fge0]; try discriminate;
    try reflexivity.
  q_cases; intros; discriminate.
Qed.

Lemma normalize_notna (c : cell) : isna (normalize c) = false.
Proof.
  unfold normalize. destruct (to_numeric (clean_monetary c)); reflexivity.
Qed.

End Signs.

(** ** Partitions *)

Section Partitions.

Import FinalExport.

Local Open Scope string_scope.

Lemma filter_three_way {A : Type} (f g : A -> bool) (l : list A) :
  (forall x, f x = true -> g x = false) ->
  Permutation
    (filter f l ++ filter g l ++
     filter (fun x => negb (f x) && negb (g x)) l) l.
Proof.
  intros Hfg. induction l as [| x l IH]; [constructor |].
  cbn [filter].
  destruct (f x) eqn:Hf.
  - rewrite (Hfg x Hf). cbn [negb andb app]. constructor. exact IH.
  - destruct (g x) eqn:Hg; cbn [negb andb].
    + apply Permutation_sym. apply Permutation_cons_app.
      apply Permutation_sym. exact IH.
    + apply Permutation_sym.
      rewrite app_assoc. apply Permutation_cons_app.
      rewrite <- app_assoc. apply Permutation_sym. exact IH.
Qed.

Lemma filter_two_way {A : Type} (f : A -> bool) (l : list A) :
  Permutation (filter f l ++ filter (fun x => negb (f x)) l) l.
Proof.
  induction l as [| x l IH]; [constructor |].
  cbn [filter]. destruct (f x); cbn [negb app].
  - constructor. exact IH.
  - apply Permutation_sym. apply Permutation_cons_app.
    apply Permutation_sym. exact IH.
Qed.

Lemma invoice_is_no_credit_memo {A : Type} (r : Row A) :
  type_is "Invoice" r = true -> type_is "Credit Memo" r = false.
Proof.
  unfold type_is. destruct (Type_ r) as [s | s |]; try discriminate.
  intros H. apply String.eqb_eq in H. subst s. reflexivity.
Qed.

Lemma filter_eq_iff {A : Type} (f g : A -> bool) (l : list A) :
  filter f l = filter g l -> forall x, In x l -> f x = true -> g x = true.
Proof.
  intros H x Hin Hf.
  assert (Hx : In x (filter g l)).
  { rewrite <- H. apply filter_In. auto. }
  apply filter_In in Hx. tauto.
Qed.

(** C5, as the code has it.  The two signals are not equivalent: over
    a set of cleaned invoices the split by the presence of a last
    payment date and the split by the amount due give the same paid and
    the same outstanding population exactly when every invoice of the
    set has a payment date if and only if nothing is due on it, and has
    none if and only if its amount due is positive. *)
Theorem signals_agree_iff (invoices : list (Row pyfloat)) :
  (filter paid_by_date invoices = paid_invoices_raw invoices /\
   filter (fun r => negb (paid_by_date r)) invoices
   = outstanding_invoices_raw invoices)
  <->
  (forall r, In r invoices ->
             paid_by_date r = feq0 (Amt_Due r) /\
             negb (paid_by_date r) = fgt0 (Amt_Due r)).
Proof.
  unfold paid_invoices_raw, outstanding_invoices_raw. split.
  - intros [Hp Ho] r Hin. split.
    + destruct (paid_by_date r) eqn:E1, (feq0 (Amt_Due r)) eqn:E2;
        try reflexivity.
      * rewrite <- E2. symmetry.
        apply (filter_eq_iff _ _ _ Hp r Hin E1).
      * rewrite <- E1.
        apply (filter_eq_iff _ _ _ (eq_sym Hp) r Hin E2).
    + destruct (negb (paid_by_date r)) eqn:E1, (fgt0 (Amt_Due r)) eqn:E2;
        try reflexivity.
      * rewrite <- E2. symmetry.
        apply (filter_eq_iff _ _ _ Ho r Hin E1).
      * rewrite <- E1.
        apply (filter_eq_iff (fun r => fgt0 (Amt_Due r))
                 (fun r => negb (paid_by_date r)) _ (eq_sym Ho) r Hin E2).
  - intros H. split; apply filter_ext_in; intros r Hin;
      destruct (H r Hin) as [H1 H2]; assumption.
Qed.

(** The theorem on a file of two invoices, one paid in full and one
    unpaid. *)
Lemma signals_agree_iff_witness :
  let invoices := map (map_monetary normalize)
                      [Samples.paid_late; Samples.unpaid] in
  filter paid_by_date invoices = paid_invoices_raw invoices /\
  filter (fun r => negb (paid_by_date r)) invoices
  = outstanding_invoices_raw invoices.
Proof.
  cbv zeta.
  apply (proj2 (signals_agree_iff
                  (map (map_monetary normalize)
                       [Samples.paid_late; Samples.unpaid]))).
  intros r [<- | [<- | []]]; split; reflexivity.
Defined.

(** C5 as stated fails on a partial payment: the invoice has a payment
    date, so [CorrectedFactoringAnalyzer] counts it paid, and an amount
    still due, so [final_export] counts it outstanding. *)
Lemma signals_disagree_on_partial_payment :
  map (fun a => Number (CorrectedFactoringAnalyzer.base
                          (CorrectedFactoringAnalyzer.invoice a)))
      (CorrectedFactoringAnalyzer.df_paid_invoices
         (CorrectedFactoringAnalyzer.prepare_data [Samples.part_paid]))
  = [CStr "1005"] /\
  CorrectedFactoringAnalyzer.df_outstanding_invoices
    (CorrectedFactoringAnalyzer.prepare_data [Samples.part_paid]) = [] /\
  raw_paid_invoices (final_export to_datetime_mdY 0 [Samples.part_paid])
  = [] /\
  map (fun r => Number (base r))
      (raw_outstanding_invoices
         (final_export to_datetime_mdY 0 [Samples.part_paid]))
  = [CStr "1005"] /\
  (let r := map_monetary normalize Samples.part_paid in
   paid_by_payment_date (to_datetime_mdY (Last_Payment_Date r)) = true /\
   paid_by_amount_due (Amt_Due r) = false).
Proof. vm_compute. repeat split. Qed.

Lemma type_is_map_monetary {A B : Type} (f : A -> B) (t : string)
  (r : Row A) :
  type_is t (map_monetary f r) = type_is t r.
Proof. reflexivity. Qed.

Lemma invoices_without_negative_due (raw : list (Row cell))
  (p : pyfloat -> bool) :
  (forall x, p x = true -> flt0 x = false) ->
  filter (fun r => p (Amt_Due r))
         (filter (type_is "Invoice")
            (map (map_monetary normalize)
                 (filter (fun r => negb (negative_due_invoice r)) raw)))
  = filter (fun r => p (Amt_Due r))
           (filter (type_is "Invoice") (map (map_monetary normalize) raw)).
Proof.
  intros Hp. induction raw as [| x raw IH]; [reflexivity |].
  cbn [filter map]. unfold negative_due_invoice at 1.
  rewrite (type_is_map_monetary normalize "Invoice" x).
  destruct (type_is "Invoice" x) eqn:Ht; cbn [andb negb].
  - destruct (flt0 (normalize (Amt_Due x))) eqn:Hneg; cbn [negb].
    + cbn [filter]. rewrite IH.
      replace (Amt_Due (map_monetary normalize x))
        with (normalize (Amt_Due x)) by reflexivity.
      destruct (p (normalize (Amt_Due x))) eqn:Hpx; [| reflexivity].
      apply Hp in Hpx. congruence.
    + cbn [map filter].
      rewrite (type_is_map_monetary normalize "Invoice" x), Ht.
      cbn [filter]. rewrite IH. reflexivity.
  - cbn [map filter].
    rewrite (type_is_map_monetary normalize "Invoice" x), Ht.
    exact IH.
Qed.

Lemma fgt0_not_flt0 (x : pyfloat) : fgt0 x = true -> flt0 x = false.
Proof.
  intros H. destruct (flt0 x) eqn:E; [| reflexivity].
  apply flt0_not_fge0 in E. rewrite fge0_split, H in E.
  rewrite orb_true_r in E. discriminate.
Qed.

Lemma feq0_not_flt0 (x : pyfloat) : feq0 x = true -> flt0 x = false.
Proof.
  intros H. destruct (flt0 x) eqn:E; [| reflexivity].
  apply flt0_not_fge0 in E. rewrite fge0_split, H in E. discriminate.
Qed.

Lemma aged_rows_base (to_datetime : cell -> option Z)
  (df : list (Row pyfloat)) (ty : invoice_type) :
  map base (calculate_aging_correctly to_datetime df ty) = df.
Proof.
  unfold calculate_aging_correctly. rewrite map_map.
  cbn [aged_row base]. apply map_id.
Qed.

(** C10.  In [final_export] the paid population is the invoices with an
    amount due equal to 0 and the outstanding population those with a
    positive amount due: no invoice is in both, an invoice is in one of
    them exactly when its amount due is not negative, and an invoice
    with a negative amount due is in neither and in no aging table:
    the aging sheets are those of the file without such invoices. *)
Theorem amount_due_split (to_datetime : cell -> option Z) (now : Z)
  (raw : list (Row cell)) :
  let base_df :=
    FactoringAnalyzer.df_invoice
      (FactoringAnalyzer.prepare_data to_datetime now raw) in
  let wb := final_export to_datetime now raw in
  let trimmed :=
    final_export to_datetime now
      (filter (fun r => negb (negative_due_invoice r)) raw) in
  map base (raw_paid_invoices wb) = paid_invoices_raw base_df /\
  map base (raw_outstanding_invoices wb) = outstanding_invoices_raw base_df /\
  (forall r, In r (paid_invoices_raw base_df) <->
             In r base_df /\ feq0 (Amt_Due r) = true) /\
  (forall r, In r (outstanding_invoices_raw base_df) <->
             In r base_df /\ fgt0 (Amt_Due r) = true) /\
  (forall r, ~ (In r (paid_invoices_raw base_df) /\
                In r (outstanding_invoices_raw base_df))) /\
  (forall r, In r (paid_invoices_raw base_df) \/
             In r (outstanding_invoices_raw base_df) <->
             In r base_df /\ fge0 (Amt_Due r) = true) /\
  (forall r, In r base_df -> flt0 (Amt_Due r) = true ->
             ~ In r (map base (raw_paid_invoices wb)) /\
             ~ In r (map base (raw_outstanding_invoices wb))) /\
  (raw_paid_invoices wb = raw_paid_invoices trimmed /\
   raw_outstanding_invoices wb = raw_outstanding_invoices trimmed /\
   paid_count wb = paid_count trimmed /\
   paid_amount wb = paid_amount trimmed /\
   paid_pct_final wb = paid_pct_final trimmed /\
   out_count wb = out_count trimmed /\
   out_amount wb = out_amount trimmed /\
   out_pct_final wb = out_pct_final trimmed).
Proof.
  cbv zeta.
  assert (Hpaid : forall r l, In r (paid_invoices_raw l) <->
                              In r l /\ feq0 (Amt_Due r) = true).
  { intros r l. unfold paid_invoices_raw. apply filter_In. }
  assert (Hout : forall r l, In r (outstanding_invoices_raw l) <->
                             In r l /\ fgt0 (Amt_Due r) = true).
  { intros r l. unfold outstanding_invoices_raw. apply filter_In. }
  assert (Hbase_paid :
            map base (raw_paid_invoices (final_export to_datetime now raw))
            = paid_invoices_raw
                (FactoringAnalyzer.df_invoice
                   (FactoringAnalyzer.prepare_data to_datetime now raw))).
  { cbn [final_export raw_paid_invoices]. apply aged_rows_base. }
  assert (Hbase_out :
            map base
                (raw_outstanding_invoices (final_export to_datetime now raw))
            = outstanding_invoices_raw
                (FactoringAnalyzer.df_invoice
                   (FactoringAnalyzer.prepare_data to_datetime now raw))).
  { cbn [final_export raw_outstanding_invoices]. apply aged_rows_base. }
  split; [exact Hbase_paid |]. split; [exact Hbase_out |].
  split; [intros r; apply Hpaid |]. split; [intros r; apply Hout |].
  split.
  { intros r [H1 H2]. apply Hpaid in H1. apply Hout in H2.
    destruct H1 as [_ H1]. destruct H2 as [_ H2].
    apply feq0_not_fgt0 in H1. congruence. }
  split.
  { intros r. rewrite Hpaid, Hout, fge0_split, orb_true_iff. tauto. }
  split.
  { intros r Hin Hneg. rewrite Hbase_paid, Hbase_out, Hpaid, Hout.
    split; intros [_ H].
    - apply feq0_not_flt0 in H. congruence.
    - apply fgt0_not_flt0 in H. congruence. }
  assert (Ep : paid_invoices_raw
                 (FactoringAnalyzer.df_invoice
                    (FactoringAnalyzer.prepare_data to_datetime now
                       (filter (fun r => negb (negative_due_invoice r)) raw)))
               = paid_invoices_raw
                   (FactoringAnalyzer.df_invoice
                      (FactoringAnalyzer.prepare_data to_datetime now raw))).
  { cbn [FactoringAnalyzer.prepare_data FactoringAnalyzer.df_invoice].
    unfold paid_invoices_raw.
    apply (invoices_without_negative_due raw feq0 feq0_not_flt0). }
  assert (Eo : outstanding_invoices_raw
                 (FactoringAnalyzer.df_invoice
                    (FactoringAnalyzer.prepare_data to_datetime now
                       (filter (fun r => negb (negative_due_invoice r)) raw)))
               = outstanding_invoices_raw
                   (FactoringAnalyzer.df_invoice
                      (FactoringAnalyzer.prepare_data to_datetime now raw))).
  { cbn [FactoringAnalyzer.prepare_data FactoringAnalyzer.df_invoice].
    unfold outstanding_invoices_raw.
    apply (invoices_without_negative_due raw fgt0 fgt0_not_flt0). }
  cbn [final_export raw_paid_invoices raw_outstanding_invoices paid_count
       paid_amount paid_pct_final out_count out_amount out_pct_final].
  rewrite Ep, Eo. repeat split; reflexivity.
Qed.

(** The theorem on a file with an overpaid invoice: the invoice is in
    no population. *)
Lemma amount_due_split_witness :
  let r := map_monetary normalize Samples.overpaid in
  let wb := final_export to_datetime_mdY 0
              [Samples.paid_late; Samples.overpaid; Samples.unpaid] in
  flt0 (Amt_Due r) = true /\
  ~ In r (map base (raw_paid_invoices wb)) /\
  ~ In r (map base (raw_outstanding_invoices wb)).
Proof.
  cbv zeta. split; [reflexivity |].
  destruct (amount_due_split to_datetime_mdY 0
              [Samples.paid_late; Samples.overpaid; Samples.unpaid])
    as [_ [_ [_ [_ [_ [_ [H _]]]]]]].
  apply H.
  - right. left. reflexivity.
  - reflexivity.
Defined.

(** C8, as the code has it.  The invoices, the credit memos and the
    rows of any other type together make up the table, but the code has
    no group for the rows of another type: they stay in [df_full] only.
    The split by last payment date divides the invoices in two with
    nothing lost or repeated; the split by amount due leaves out the
    invoices whose amount due is negative. *)
Theorem partitions_and_remainders :
  (forall (to_datetime : cell -> option Z) now raw,
      let a := FactoringAnalyzer.prepare_data to_datetime now raw in
      Permutation
        (FactoringAnalyzer.df_invoice a ++
         FactoringAnalyzer.df_credit_memo a ++
         filter (fun r => negb (type_is "Invoice" r) &&
                          negb (type_is "Credit Memo" r))
                (FactoringAnalyzer.df_full a))
        (FactoringAnalyzer.df_full a) /\
      FactoringAnalyzer.df_full a = map (map_monetary normalize) raw) /\
  (forall raw,
      let a := CorrectedFactoringAnalyzer.prepare_data raw in
      Permutation
        (map CorrectedFactoringAnalyzer.invoice
             (CorrectedFactoringAnalyzer.df_paid_invoices a) ++
         map CorrectedFactoringAnalyzer.invoice
             (CorrectedFactoringAnalyzer.df_outstanding_invoices a))
        (CorrectedFactoringAnalyzer.df_invoice a)) /\
  (forall (to_datetime : cell -> option Z) now raw,
      let base_df :=
        FactoringAnalyzer.df_invoice
          (FactoringAnalyzer.prepare_data to_datetime now raw) in
      Permutation
        (paid_invoices_raw base_df ++ outstanding_invoices_raw base_df ++
         filter (fun r => flt0 (Amt_Due r)) base_df)
        base_df).
Proof.
  split; [| split].
  - intros to_datetime now raw. cbv zeta.
    cbn [FactoringAnalyzer.prepare_data FactoringAnalyzer.df_invoice
         FactoringAnalyzer.df_credit_memo FactoringAnalyzer.df_full].
    split; [| reflexivity].
    apply filter_three_way. intros x. apply invoice_is_no_credit_memo.
  - intros raw. cbv zeta.
    cbn [CorrectedFactoringAnalyzer.prepare_data
         CorrectedFactoringAnalyzer.df_paid_invoices
         CorrectedFactoringAnalyzer.df_outstanding_invoices
         CorrectedFactoringAnalyzer.df_invoice].
    rewrite !map_map.
    cbn [CorrectedFactoringAnalyzer.paid_row
         CorrectedFactoringAnalyzer.outstanding_row
         CorrectedFactoringAnalyzer.invoice].
    rewrite !map_id. apply filter_two_way.
  - intros to_datetime now raw. cbv zeta.
    cbn [FactoringAnalyzer.prepare_data FactoringAnalyzer.df_invoice].
    unfold paid_invoices_raw, outstanding_invoices_raw.
    set (l := filter (type_is "Invoice") (map (map_monetary normalize) raw)).
    assert (E : filter (fun r => flt0 (Amt_Due r)) l
                = filter (fun r => negb (feq0 (Amt_Due r)) &&
                                   negb (fgt0 (Amt_Due r))) l).
    { apply filter_ext_in. intros r Hin. symmetry.
      apply neither_is_negative.
      unfold l in Hin. apply filter_In in Hin. destruct Hin as [Hin _].
      apply in_map_iff in Hin. destruct Hin as [x [<- _]].
      apply normalize_notna. }
    rewrite E.
    apply (filter_three_way (fun r => feq0 (Amt_Due r))
                            (fun r => fgt0 (Amt_Due r))).
    intros x. apply feq0_not_fgt0.
Qed.

(** C8 as stated fails twice on a file of one payment row and one
    overpaid invoice: the payment row is in neither group of the
    analyzer, and the invoice, its amount due negative, is neither paid
    nor outstanding; the summary counts two records, one invoice, no
    paid invoice, no outstanding invoice and no credit memo. *)
Lemma rows_fall_out_of_the_groups :
  (let a := FactoringAnalyzer.prepare_data to_datetime_mdY 0
              [Samples.payment; Samples.overpaid] in
   List.length (FactoringAnalyzer.df_full a) = 2%nat /\
   map Number (FactoringAnalyzer.df_invoice a) = [CStr "1006"] /\
   FactoringAnalyzer.df_credit_memo a = []) /\
  (let wb := final_export to_datetime_mdY 0
               [Samples.payment; Samples.overpaid] in
   raw_paid_invoices wb = [] /\
   raw_outstanding_invoices wb = [] /\
   summary_count wb = [2; 1; 0; 0; 0]).
Proof. vm_compute. repeat split. Qed.

End Partitions.

(** ** The normalizer on the grammar *)

Section NormalizerGrammar.

Import MoneyGrammar.

Local Open Scope string_scope.



Lemma string_length_app (a b : string) :
  String.length (a ++ b) = (String.length a + String.length b)%nat.
Proof. induction a as [| x a IH]; cbn; [reflexivity | now rewrite IH]. Qed.




Lemma all_chars_app (p : ascii -> bool) (a b : string) :
  all_chars p (a ++ b) = all_chars p a && all_chars p b.
Proof.
  induction a as [| x a IH]; cbn; [reflexivity |].
  rewrite IH. apply andb_assoc.
Qed.























(** Groups of three digits after a first group of one to three are
    groups of digits. *)
Lemma thousands_groups (gs : list string) :
  thousands gs -> Forall (fun g => all_digits g = true) gs ->
  gs <> [] /\ Forall digit_group gs.
Proof.
  destruct gs as [| g rest]; [contradiction |].
  intros [Hg Hrest] Hall. split; [discriminate |].
  inversion Hall as [| ? ? Hd Hds]; subst. constructor.
  - split; [| exact Hd]. destruct g; cbn in Hg; [lia | discriminate].
  - rewrite Forall_forall in *. intros h Hh. split; [| now apply Hds].
    specialize (Hrest h Hh). destruct h; cbn in Hrest; [lia | discriminate].
Qed.




End NormalizerGrammar.

(** ** Percentage tables *)

Section Percentages.

Import FinalExport Aggregates.

Local Open Scope string_scope.

Lemma existsb_eqb_In (b : string) (l : list string) :
  existsb (String.eqb b) l = true <-> In b l.
Proof.
  rewrite existsb_exists. split.
  - intros [x [Hx E]]. apply String.eqb_eq in E. now subst.
  - intros H. exists b. split; [exact H | apply String.eqb_refl].
Qed.

Lemma existsb_eqb_ext (b : string) (l l' : list string) :
  (forall x, In x l <-> In x l') ->
  existsb (String.eqb b) l = existsb (String.eqb b) l'.
Proof.
  intros H.
  destruct (existsb (String.eqb b) l) eqn:E1,
           (existsb (String.eqb b) l') eqn:E2; try reflexivity.
  - apply existsb_eqb_In, H, existsb_eqb_In in E1. congruence.
  - apply existsb_eqb_In, H, existsb_eqb_In in E2. congruence.
Qed.

Lemma keyed_filter {V : Type} (G : string -> V) (c : string)
  (ks : list string) :
  NoDup ks ->
  filter (fun row => String.eqb (fst row) c) (map (fun k => (k, G k)) ks)
  = if existsb (String.eqb c) ks then [(c, G c)] else [].
Proof.
  induction ks as [| k ks IH]; [reflexivity |].
  intros Hnd. inversion Hnd as [| ? ? Hk Hks]; subst.
  cbn [map filter fst existsb].
  rewrite (String.eqb_sym c k).
  destruct (String.eqb_spec k c) as [-> | Hne]; cbn [orb].
  - rewrite (IH Hks).
    destruct (existsb (String.eqb c) ks) eqn:E; [| reflexivity].
    apply existsb_eqb_In in E. contradiction.
  - apply IH. exact Hks.
Qed.

Lemma sort_keyed {V : Type} (G : string -> V) (ks : list string) :
  NoDup ks -> (forall k, In k ks -> In k aging_order) ->
  sort_aging_buckets (map (fun k => (k, G k)) ks)
  = map (fun b => (b, G b))
        (filter (fun b => existsb (String.eqb b) ks) aging_order).
Proof.
  intros Hnd Hin. unfold sort_aging_buckets.
  assert (Hrest :
            filter (fun row : string * V =>
                      negb (existsb (String.eqb (fst row)) aging_order))
                   (map (fun k => (k, G k)) ks) = []).
  { clear Hnd. induction ks as [| k ks IH]; [reflexivity |].
    cbn [map filter fst].
    assert (E : existsb (String.eqb k) aging_order = true).
    { apply existsb_eqb_In, Hin. now left. }
    rewrite E. cbn [negb]. apply IH. intros x Hx. apply Hin. now right. }
  rewrite Hrest. cbn [map]. rewrite app_nil_r.
  generalize aging_order as order.
  induction order as [| c order IH]; [reflexivity |].
  cbn [flat_map filter]. rewrite (keyed_filter G c ks Hnd), IH.
  destruct (existsb (String.eqb c) ks); reflexivity.
Qed.

Lemma group_keys_present (df : list AgedRow) (b : string) :
  existsb (String.eqb b) (group_keys df)
  = existsb (String.eqb b) (map Aging_Bucket df).
Proof.
  apply existsb_eqb_ext. intros x. unfold group_keys. apply nodup_In.
Qed.




Lemma Qsum_cons (x : Q) (l : list Q) : Qsum (x :: l) = (x + Qsum l)%Q.
Proof. reflexivity. Qed.

Lemma Qsum_plus {A : Type} (f g : A -> Q) (l : list A) :
  (Qsum (map (fun x => f x + g x) l)
   == Qsum (map f l) + Qsum (map g l))%Q.
Proof.
  induction l as [| x l IH]; cbn [map Qsum fold_right]; [lra |].
  fold (Qsum (map (fun x => (f x + g x)%Q) l)).
  fold (Qsum (map f l)). fold (Qsum (map g l)). lra.
Qed.

Lemma Qsum_ext {A : Type} (f g : A -> Q) (l : list A) :
  (forall x, In x l -> (f x == g x)%Q) ->
  (Qsum (map f l) == Qsum (map g l))%Q.
Proof.
  induction l as [| x l IH]; intros H; cbn [map Qsum fold_right]; [lra |].
  fold (Qsum (map f l)). fold (Qsum (map g l)).
  rewrite (H x (or_introl eq_refl)), IH; [lra |].
  intros y Hy. apply H. now right.
Qed.


Lemma Qsum_zero {A : Type} (l : list A) :
  (Qsum (map (fun _ => 0) l) == 0)%Q.
Proof.
  induction l as [| x l IH]; [reflexivity |].
  cbn [map Qsum fold_right]. fold (Qsum (map (fun _ : A => 0%Q) l)).
  rewrite IH. lra.
Qed.

(** A sum over keys of an amount that only one key carries. *)
Lemma Qsum_one_key (k : string) (x : Q) (ks : list string) :
  NoDup ks -> In k ks ->
  (Qsum (map (fun b => if String.eqb k b then x else 0) ks) == x)%Q.
Proof.
  induction ks as [| c ks IH]; intros Hnd Hin; [contradiction |].
  inversion Hnd as [| ? ? Hc Hks]; subst.
  cbn [map Qsum fold_right].
  fold (Qsum (map (fun b => if String.eqb k b then x else 0%Q) ks)).
  destruct (String.eqb_spec k c) as [-> | Hne].
  - assert (E : (Qsum (map (fun b => if String.eqb c b then x else 0) ks)
                 == 0)%Q).
    { clear IH Hnd Hks Hin. induction ks as [| d ks IH]; [reflexivity |].
      cbn [map Qsum fold_right].
      fold (Qsum (map (fun b => if String.eqb c b then x else 0%Q) ks)).
      destruct (String.eqb_spec c d) as [-> | _].
      - exfalso. apply Hc. now left.
      - rewrite IH; [lra |]. intros H. apply Hc. now right. }
    rewrite E. lra.
  - destruct Hin as [-> | Hin]; [congruence |].
    rewrite (IH Hks Hin). lra.
Qed.

(** Summing group by group is summing the whole table. *)
Lemma group_sum (w : AgedRow -> Q) (ks : list string) (df : list AgedRow) :
  NoDup ks ->
  (forall r, In r df -> In (Aging_Bucket r) ks) ->
  (Qsum (map (fun b => Qsum (map w (group b df))) ks)
   == Qsum (map w df))%Q.
Proof.
  intros Hnd. induction df as [| r df IH]; intros Hin.
  - rewrite (Qsum_ext (fun b => Qsum (map w (group b []))) (fun _ => 0%Q))
      by (intros; reflexivity).
    apply Qsum_zero.
  - cbn [map]. rewrite Qsum_cons.
    rewrite <- IH by (intros x Hx; apply Hin; now right).
    rewrite <- (Qsum_one_key (Aging_Bucket r) (w r) ks Hnd)
      by (apply Hin; now left).
    rewrite <- Qsum_plus. apply Qsum_ext. intros b _.
    unfold group. cbn [filter].
    destruct (String.eqb (Aging_Bucket r) b); cbn [map];
      rewrite ?Qsum_cons; lra.
Qed.


Lemma count_as_sum (df : list AgedRow) :
  (inject_Z (count_Number df)
   == Qsum (map (fun r => if number_notna r then 1 else 0) df))%Q.
Proof.
  unfold count_Number, count_notna.
  induction df as [| r df IH]; [reflexivity |].
  cbn [filter map Qsum fold_right].
  fold (Qsum (map (fun r => if number_notna r then 1%Q else 0%Q) df)).
  unfold number_notna at 1.
  destruct (notna (Number (base r))).
  - cbn [List.length]. rewrite Nat2Z.inj_succ, <- Z.add_1_l, inject_Z_plus.
    rewrite IH. reflexivity.
  - rewrite IH. lra.
Qed.




Lemma labels_in_order (ty : invoice_type) (b : string) :
  In b (labels_of ty) -> In b aging_order.
Proof.
  destruct ty; cbn; intuition (subst; auto 10).
Qed.

Lemma aged_buckets (to_datetime : cell -> option Z)
  (df0 : list (Row pyfloat)) (ty : invoice_type) :
  Forall (fun r => In (Aging_Bucket r) (labels_of ty))
         (calculate_aging_correctly to_datetime df0 ty).
Proof.
  apply Forall_forall. intros r Hr. unfold calculate_aging_correctly in Hr.
  apply in_map_iff in Hr. destruct Hr as [x [<- _]].
  rewrite aged_row_bucket. apply spec_bucket_label.
Qed.

Lemma present_buckets_cover (df : list AgedRow) :
  Forall (fun r => In (Aging_Bucket r) aging_order) df ->
  NoDup (present_buckets df) /\
  forall r, In r df -> In (Aging_Bucket r) (present_buckets df).
Proof.
  intros H. split.
  - unfold present_buckets. apply NoDup_filter.
    unfold aging_order. repeat constructor; cbn; intuition discriminate.
  - intros r Hr. unfold present_buckets. apply filter_In. split.
    + rewrite Forall_forall in H. now apply H.
    + apply existsb_eqb_In. now apply in_map.
Qed.


Lemma count_all_numbers (df : list AgedRow) :
  Forall (fun r => number_notna r = true) df ->
  count_Number df = Z.of_nat (List.length df).
Proof.
  intros H. unfold count_Number, count_notna. f_equal. f_equal.
  induction df as [| r df IH]; [reflexivity |].
  inversion H as [| ? ? Hr Hdf]; subst. cbn [filter].
  unfold number_notna in Hr. rewrite Hr, (IH Hdf). reflexivity.
Qed.






End Percentages.

(** ** Infinite amounts *)

Section Infinity.

Local Open Scope string_scope.

(** C7.  The normalizer returns a value for every cell and never NaN,
    but the value is not always finite: a cell that reads [inf] or
    [Infinity], as a string or as a number, with or without the
    decoration of an amount, comes out as an infinity. *)
Theorem normalize_infinity :
  (forall c, isna (normalize c) = false) /\
  normalize (CStr "inf") = PInf /\
  normalize (CNum "inf") = PInf /\
  normalize (CStr "$Infinity") = PInf /\
  normalize (CStr "(inf)") = NInf /\
  is_finite (normalize (CStr "inf")) = false /\
  CorrectedFactoringAnalyzer.normalize (CStr "inf") = PInf.
Proof.
  split; [apply normalize_notna |].
  vm_compute. repeat split; reflexivity.
Qed.

End Infinity.

(* ================================================================== *)
(** * Further properties of the code *)
(* ================================================================== *)

(** ** Buckets as ranges *)

Section BucketRanges.

Import FinalExport.

Local Open Scope string_scope.

Ltac rank_values :=
  repeat match goal with
         | |- context [bucket_rank ?s] =>
             let v := eval vm_compute in (bucket_rank s) in
             change (bucket_rank s) with v
         end.

(** X1.  [create_aging_bucket] follows the order of the sheets: a
    longer delay never falls in an earlier bucket. *)
Theorem create_aging_bucket_monotone (ty : invoice_type) (d1 d2 : Z) :
  d1 <= d2 ->
  (bucket_rank (create_aging_bucket d1 ty)
   <= bucket_rank (create_aging_bucket d2 ty))%nat.
Proof.
  intros H. rewrite !create_aging_bucket_spec. unfold spec_bucket.
  destruct (Z.leb_spec d1 0), (Z.leb_spec d1 30), (Z.leb_spec d1 60),
           (Z.leb_spec d1 90), (Z.leb_spec d2 0), (Z.leb_spec d2 30),
           (Z.leb_spec d2 60), (Z.leb_spec d2 90);
    try lia; destruct ty; rank_values; lia.
Qed.

Lemma create_aging_bucket_monotone_witness :
  (bucket_rank (create_aging_bucket 14 paid)
   <= bucket_rank (create_aging_bucket 45 paid))%nat.
Proof. apply create_aging_bucket_monotone. lia. Defined.

Lemma first_bucket_days (ty : invoice_type) (days : Z) :
  create_aging_bucket days ty
  = match ty with paid => "On-time" | outstanding => "Current" end
  <-> days <= 0.
Proof.
  rewrite create_aging_bucket_spec. unfold spec_bucket.
  destruct (Z.leb_spec days 0), (Z.leb_spec days 30),
           (Z.leb_spec days 60), (Z.leb_spec days 90);
    try lia; destruct ty;
    split; intros; try lia; try discriminate; try reflexivity.
Qed.

(** X2.  The bucket of a record tells the range of its delay: the
    label of the first bucket stands for a delay of 0 or less, each
    other label for its range of days and for no other delay. *)
Theorem aging_bucket_range (ty : invoice_type) (days : Z) :
  (create_aging_bucket days ty
   = match ty with paid => "On-time" | outstanding => "Current" end
   <-> days <= 0) /\
  (create_aging_bucket days ty = "1-30 Days" <-> 1 <= days <= 30) /\
  (create_aging_bucket days ty = "31-60 Days" <-> 31 <= days <= 60) /\
  (create_aging_bucket days ty = "61-90 Days" <-> 61 <= days <= 90) /\
  (create_aging_bucket days ty = "90+ Days" <-> 90 < days) /\
  create_aging_bucket days ty
  <> match ty with paid => "Current" | outstanding => "On-time" end.
Proof.
  rewrite create_aging_bucket_spec. unfold spec_bucket.
  destruct (Z.leb_spec days 0), (Z.leb_spec days 30),
           (Z.leb_spec days 60), (Z.leb_spec days 90);
    try lia; destruct ty;
    repeat split; intros; try lia; try discriminate; try reflexivity.
Qed.

(** X3.  In [calculate_aging_correctly] the first bucket mixes two
    kinds of records: a paid invoice is On-time when it was paid by its
    due date and also when one of its two dates is missing or
    unreadable; an outstanding invoice is Current when it is due on
    2025-06-23 or later and also when its due date is missing or
    unreadable. *)
Theorem first_bucket_rows (to_datetime : cell -> option Z)
  (r : Row pyfloat) :
  (Aging_Bucket (aged_row to_datetime paid r) = "On-time" <->
   to_datetime (Due_Date r) = None \/
   to_datetime (Last_Payment_Date r) = None \/
   exists due lp,
     to_datetime (Due_Date r) = Some due /\
     to_datetime (Last_Payment_Date r) = Some lp /\ lp <= due) /\
  (Aging_Bucket (aged_row to_datetime outstanding r) = "Current" <->
   to_datetime (Due_Date r) = None \/
   exists due,
     to_datetime (Due_Date r) = Some due /\
     days_from_civil 2025 6 23 <= due).
Proof.
  pose proof (first_bucket_days paid) as Hp.
  pose proof (first_bucket_days outstanding) as Ho.
  split.
  - cbn [aged_row Aging_Bucket]. rewrite (Hp _).
    unfold aging_delay_days, days_between, fillna0.
    destruct (to_datetime (Due_Date r)) as [due |],
             (to_datetime (Last_Payment_Date r)) as [lp |].
    + split.
      * intros H. right. right. exists due, lp. repeat split. lia.
      * intros [H | [H | [d [l [Hd [Hl Hle]]]]]]; try discriminate.
        injection Hd as <-. injection Hl as <-. lia.
    + split; [auto | lia].
    + split; [auto | lia].
    + split; [auto | lia].
  - cbn [aged_row Aging_Bucket]. rewrite (Ho _).
    unfold aging_delay_days, days_between, fillna0.
    destruct (to_datetime (Due_Date r)) as [due |].
    + change cutoff_date with (days_from_civil 2025 6 23). split.
      * intros H. right. exists due. split; [reflexivity | lia].
      * intros [H | [d [Hd Hle]]]; [discriminate |].
        injection Hd as <-. lia.
    + split; [auto | lia].
Qed.

End BucketRanges.

(** ** [sort_aging_buckets] *)

Section SortBuckets.

Import FinalExport.

Local Open Scope string_scope.

Context {V : Type}.

Lemma aging_order_nodup : NoDup aging_order.
Proof. unfold aging_order. repeat constructor; cbn; intuition discriminate. Qed.





Lemma flat_map_aging_order {A : Type} (f : string -> list A) :
  flat_map f aging_order
  = (f "On-time" ++ f "Current" ++ f "1-30 Days" ++ f "31-60 Days" ++
     f "61-90 Days" ++ f "90+ Days" ++ [])%list.
Proof. reflexivity. Qed.


Lemma flat_map_filter_cons (order : list string) (r : string * V)
  (t : list (string * V)) :
  NoDup order ->
  Permutation
    (flat_map (fun c => filter (fun row => fst row =? c) (r :: t)) order)
    ((if existsb (String.eqb (fst r)) order then [r] else []) ++
     flat_map (fun c => filter (fun row => fst row =? c) t) order).
Proof.
  induction order as [| c order IH]; intros Hnd; [constructor |].
  inversion Hnd as [| ? ? Hc Hnd']; subst.
  cbn [flat_map filter existsb].
  destruct (String.eqb_spec (fst r) c) as [E | E]; cbn [orb].
  - assert (Hno : existsb (String.eqb (fst r)) order = false).
    { destruct (existsb (String.eqb (fst r)) order) eqn:X; [| reflexivity].
      apply existsb_exists in X. destruct X as [x [Hx Ex]].
      apply String.eqb_eq in Ex. subst. contradiction. }
    specialize (IH Hnd'). rewrite Hno in IH. cbn [app] in IH |- *.
    constructor. apply Permutation_app_head. exact IH.
  - specialize (IH Hnd').
    rewrite (Permutation_app_head _ IH).
    rewrite !app_assoc. apply Permutation_app_tail.
    apply Permutation_app_comm.
Qed.

(** X4.  [sort_aging_buckets] loses no row and repeats none: the
    sorted table holds the rows of the table, a row whose label is none
    of the six categories keeping its values under the label ["nan"];
    when every label is a category the sorted table is a rearrangement
    of the table. *)
Theorem sort_aging_buckets_keeps_rows (tbl : list (string * V)) :
  Permutation
    (sort_aging_buckets tbl)
    (map (fun row =>
            if existsb (String.eqb (fst row)) aging_order
            then row else ("nan", snd row)) tbl) /\
  List.length (sort_aging_buckets tbl) = List.length tbl /\
  Permutation (map snd (sort_aging_buckets tbl)) (map snd tbl) /\
  (Forall (fun row => In (fst row) aging_order) tbl ->
   Permutation (sort_aging_buckets tbl) tbl).
Proof.
  assert (H : Permutation
                (sort_aging_buckets tbl)
                (map (fun row =>
                        if existsb (String.eqb (fst row)) aging_order
                        then row else ("nan", snd row)) tbl)).
  { unfold sort_aging_buckets. induction tbl as [| r t IH]; [constructor |].
    rewrite (flat_map_filter_cons aging_order r t aging_order_nodup).
    cbn [filter map].
    destruct (existsb (String.eqb (fst r)) aging_order); cbn [negb app].
    - constructor. exact IH.
    - apply Permutation_sym. apply Permutation_cons_app.
      apply Permutation_sym. exact IH. }
  split; [exact H |]. split; [| split].
  - rewrite (Permutation_length H). apply length_map.
  - rewrite (Permutation_map snd H), map_map.
    erewrite map_ext; [reflexivity |].
    intros row. destruct (existsb _ _); reflexivity.
  - intros Hall. rewrite H.
    erewrite map_ext_in; [rewrite map_id; reflexivity |].
    intros row Hrow. rewrite Forall_forall in Hall.
    specialize (Hall row Hrow).
    replace (existsb (String.eqb (fst row)) aging_order) with true;
      [reflexivity |].
    symmetry. apply existsb_exists. exists (fst row).
    split; [exact Hall | apply String.eqb_refl].
Qed.

Lemma block_sorted (k : nat) (block rest : list nat) :
  Forall (fun x => x = k) block ->
  Forall (fun x => (k <= x)%nat) rest ->
  StronglySorted le rest ->
  StronglySorted le (block ++ rest) /\
  Forall (fun x => (k <= x)%nat) (block ++ rest).
Proof.
  intros Hb Hr Hs. induction block as [| x block IH]; [split; assumption |].
  inversion Hb as [| ? ? Hx Hb']; subst.
  destruct (IH Hb') as [IH1 IH2]. cbn [app]. split.
  - constructor; assumption.
  - constructor; [lia | assumption].
Qed.

Lemma block_ranks (c : string) (tbl : list (string * V)) :
  Forall (fun x => x = bucket_rank c)
         (map (fun row => bucket_rank (fst row))
              (filter (fun row => fst row =? c) tbl)).
Proof.
  apply Forall_forall. intros x Hx. apply in_map_iff in Hx.
  destruct Hx as [row [<- Hrow]]. apply filter_In in Hrow.
  destruct Hrow as [_ E]. apply String.eqb_eq in E. now rewrite E.
Qed.

(** X5.  A sorted table lists its rows in the order On-time,
    Current, 1-30 Days, 31-60 Days, 61-90 Days, 90+ Days, the rows
    without a category last. *)
Theorem sort_aging_buckets_sorted (tbl : list (string * V)) :
  StronglySorted le
    (map (fun row => bucket_rank (fst row)) (sort_aging_buckets tbl)).
Proof.
  unfold sort_aging_buckets. rewrite flat_map_aging_order.
  rewrite <- !app_assoc, !map_app. cbn [map app].
  set (nan := map (fun row => bucket_rank (fst row))
                  (map (fun row => ("nan", snd row))
                       (filter (fun row =>
                                  negb (existsb (String.eqb (fst row))
                                                aging_order)) tbl))).
  assert (Hnan : Forall (fun x => x = 6%nat) nan).
  { unfold nan. rewrite map_map. apply Forall_forall. intros x Hx.
    apply in_map_iff in Hx. destruct Hx as [row [<- _]]. reflexivity. }
  destruct (block_sorted 6 nan [] Hnan (Forall_nil _) (SSorted_nil _))
    as [S6 F6].
  rewrite app_nil_r in S6, F6.
  assert (weaken : forall k l, Forall (fun x => (S k <= x)%nat) l ->
                               Forall (fun x => (k <= x)%nat) l).
  { intros k l H. eapply Forall_impl; [| exact H]. cbn. intros; lia. }
  destruct (block_sorted 5 _ nan (block_ranks "90+ Days" tbl)
                         (weaken _ _ F6) S6) as [S5 F5].
  destruct (block_sorted 4 _ _ (block_ranks "61-90 Days" tbl)
                         (weaken _ _ F5) S5) as [S4 F4].
  destruct (block_sorted 3 _ _ (block_ranks "31-60 Days" tbl)
                         (weaken _ _ F4) S4) as [S3 F3].
  destruct (block_sorted 2 _ _ (block_ranks "1-30 Days" tbl)
                         (weaken _ _ F3) S3) as [S2 F2].
  destruct (block_sorted 1 _ _ (block_ranks "Current" tbl)
                         (weaken _ _ F2) S2) as [S1 F1].
  destruct (block_sorted 0 _ _ (block_ranks "On-time" tbl)
                         (weaken _ _ F1) S1) as [S0 _].
  exact S0.
Qed.

End SortBuckets.

(** ** The tables of [final_export] *)

Section AgingTables.

Import FinalExport Aggregates.

Local Open Scope string_scope.

Lemma sorted_groupby {V : Type} (agg : list AgedRow -> V)
  (df : list AgedRow) :
  Forall (fun r => In (Aging_Bucket r) aging_order) df ->
  sort_aging_buckets (groupby agg df)
  = map (fun b => (b, agg (group b df))) (present_buckets df).
Proof.
  intros Hall. unfold groupby.
  rewrite (sort_keyed (fun k => agg (group k df))).
  - unfold present_buckets. f_equal. apply filter_ext.
    intros b. apply group_keys_present.
  - unfold group_keys. apply NoDup_nodup.
  - intros k Hk. unfold group_keys in Hk. apply nodup_In in Hk.
    apply in_map_iff in Hk. destruct Hk as [r [<- Hr]].
    rewrite Forall_forall in Hall. now apply Hall.
Qed.

Lemma aged_in_order (to_datetime : cell -> option Z)
  (df0 : list (Row pyfloat)) (ty : invoice_type) :
  Forall (fun r => In (Aging_Bucket r) aging_order)
         (calculate_aging_correctly to_datetime df0 ty).
Proof.
  pose proof (aged_buckets to_datetime df0 ty) as H.
  rewrite Forall_forall in *. intros r Hr.
  apply (labels_in_order ty). now apply H.
Qed.

Lemma inject_Zsum (l : list Z) :
  (inject_Z (Zsum l) == Qsum (map inject_Z l))%Q.
Proof.
  induction l as [| x l IH]; [reflexivity |].
  cbn [map]. rewrite Qsum_cons, <- IH.
  change (Zsum (x :: l)) with (x + Zsum l). rewrite inject_Z_plus.
  reflexivity.
Qed.

Lemma inject_Z_eq (a b : Z) : (inject_Z a == inject_Z b)%Q -> a = b.
Proof. unfold Qeq. cbn. lia. Qed.

(** X7.  Tables 1.1 and 2.1 of [final_export] have one row for each
    bucket present, in the order of the sheets, and their counts add up
    to the number of invoices of the population that have a number:
    to the size of the population when no number is missing. *)
Theorem count_by_aging_total (to_datetime : cell -> option Z)
  (df0 : list (Row pyfloat)) (ty : invoice_type) :
  let df := calculate_aging_correctly to_datetime df0 ty in
  let tbl := count_by_aging df in
  map fst tbl = present_buckets df /\
  NoDup (map fst tbl) /\
  Zsum (map snd tbl) = count_Number df /\
  (Forall (fun r => notna (Number r) = true) df0 ->
   Zsum (map snd tbl) = Z.of_nat (List.length df0)).
Proof.
  cbv zeta.
  set (df := calculate_aging_correctly to_datetime df0 ty).
  pose proof (aged_in_order to_datetime df0 ty) as Hord. fold df in Hord.
  destruct (present_buckets_cover df Hord) as [Hnd Hcover].
  assert (Htbl : count_by_aging df
                 = map (fun b => (b, count_Number (group b df)))
                       (present_buckets df)).
  { unfold count_by_aging. apply sorted_groupby. exact Hord. }
  assert (Hfst : map fst (count_by_aging df) = present_buckets df).
  { rewrite Htbl, map_map. cbn [fst]. apply map_id. }
  assert (Hsum : Zsum (map snd (count_by_aging df)) = count_Number df).
  { apply inject_Z_eq. rewrite inject_Zsum, Htbl, !map_map. cbn [snd].
    rewrite (Qsum_ext _ (fun b =>
                           Qsum (map (fun r => if number_notna r
                                               then 1 else 0)
                                     (group b df)))%Q)
      by (intros; apply count_as_sum).
    rewrite (group_sum _ _ df Hnd Hcover). symmetry. apply count_as_sum. }
  split; [exact Hfst |]. split; [rewrite Hfst; exact Hnd |].
  split; [exact Hsum |].
  intros Hnum. rewrite Hsum, count_all_numbers.
  - unfold df, calculate_aging_correctly. now rewrite length_map.
  - unfold df, calculate_aging_correctly. apply Forall_forall.
    intros r Hr. apply in_map_iff in Hr. destruct Hr as [x [<- Hx]].
    rewrite Forall_forall in Hnum. unfold number_notna. cbn [aged_row base].
    now apply Hnum.
Qed.












(** X10.  The counts of the summary sheet of [final_export]: the
    first is the number of rows of the file; the invoices are the paid
    ones, the outstanding ones and those with a negative amount due;
    the rows of the file are the invoices, the credit memos and the
    rows of another type. *)
Theorem summary_counts (to_datetime : cell -> option Z) (now : Z)
  (raw : list (Row cell)) :
  exists invoices paid_n outstanding_n credit_memos,
    summary_count (final_export to_datetime now raw)
    = [Z.of_nat (List.length raw); invoices; paid_n; outstanding_n;
       credit_memos] /\
    paid_n + outstanding_n
    + Z.of_nat (List.length (filter negative_due_invoice raw))
    = invoices /\
    invoices + credit_memos
    + Z.of_nat (List.length
                  (filter (fun r => negb (type_is "Invoice" r) &&
                                    negb (type_is "Credit Memo" r)) raw))
    = Z.of_nat (List.length raw).
Proof.
  cbn [final_export summary_count FactoringAnalyzer.prepare_data
       FactoringAnalyzer.df_full FactoringAnalyzer.df_invoice
       FactoringAnalyzer.df_credit_memo].
  set (cleaned := map (map_monetary normalize) raw).
  set (inv := filter (type_is "Invoice") cleaned).
  do 4 eexists. split.
  { unfold cleaned at 1. rewrite length_map. reflexivity. }
  unfold calculate_aging_correctly. rewrite !length_map.
  split.
  - assert (P : Permutation
                  (paid_invoices_raw inv ++ outstanding_invoices_raw inv ++
                   filter (fun r => negb (feq0 (Amt_Due r)) &&
                                    negb (fgt0 (Amt_Due r))) inv) inv).
    { apply (filter_three_way (fun r => feq0 (Amt_Due r))
                              (fun r => fgt0 (Amt_Due r))).
      intros x. apply feq0_not_fgt0. }
    apply Permutation_length in P. rewrite !length_app in P.
    assert (E : List.length
                  (filter (fun r => negb (feq0 (Amt_Due r)) &&
                                    negb (fgt0 (Amt_Due r))) inv)
                = List.length (filter negative_due_invoice raw)).
    { unfold inv, cleaned. clear P inv cleaned.
      induction raw as [| x l IH]; [reflexivity |].
      cbn [map filter]. unfold negative_due_invoice at 1.
      rewrite (type_is_map_monetary normalize "Invoice" x).
      destruct (type_is "Invoice" x); cbn [andb filter]; [| exact IH].
      replace (Amt_Due (map_monetary normalize x))
        with (normalize (Amt_Due x)) by reflexivity.
      rewrite (neither_is_negative _ (normalize_notna (Amt_Due x))).
      destruct (flt0 (normalize (Amt_Due x))); cbn [List.length];
        now rewrite IH. }
    lia.
  - assert (P : Permutation
                  (filter (type_is "Invoice") cleaned ++
                   filter (type_is "Credit Memo") cleaned ++
                   filter (fun r => negb (type_is "Invoice" r) &&
                                    negb (type_is "Credit Memo" r)) cleaned)
                  cleaned).
    { apply filter_three_way. intros x. apply invoice_is_no_credit_memo. }
    apply Permutation_length in P. rewrite !length_app in P.
    assert (E : List.length
                  (filter (fun r => negb (type_is "Invoice" r) &&
                                    negb (type_is "Credit Memo" r)) cleaned)
                = List.length
                    (filter (fun r => negb (type_is "Invoice" r) &&
                                      negb (type_is "Credit Memo" r)) raw)).
    { unfold cleaned. clear. induction raw as [| x l IH]; [reflexivity |].
      cbn [map filter].
      rewrite !(type_is_map_monetary normalize _ x).
      destruct (negb (type_is "Invoice" x) && negb (type_is "Credit Memo" x));
        cbn [List.length]; now rewrite IH. }
    unfold cleaned at 4 in P. rewrite length_map in P.
    fold inv in P. lia.
Qed.

End AgingTables.

(** ** The worksheets of [export_aging_buckets] *)

Section Worksheets.

Import ExportSheets.

Local Open Scope string_scope.

Lemma str_replace_chars (p : ascii -> bool) (c : ascii) (r s : string) :
  MoneyGrammar.all_chars p r = true ->
  (forall x, Ascii.eqb x c = false -> In x (list_ascii_of_string s) ->
             p x = true) ->
  MoneyGrammar.all_chars p (str_replace c r s) = true.
Proof.
  intros Hr. induction s as [| x s IH]; intros Hs; [reflexivity |].
  cbn [str_replace]. destruct (Ascii.eqb x c) eqn:E.
  - rewrite all_chars_app, Hr, IH; [reflexivity |].
    intros y Hy Hin. apply Hs; [exact Hy | now right].
  - cbn [MoneyGrammar.all_chars]. rewrite (Hs x E (or_introl eq_refl)), IH;
      [reflexivity |].
    intros y Hy Hin. apply Hs; [exact Hy | now right].
Qed.

Lemma all_chars_In (p : ascii -> bool) (s : string) :
  MoneyGrammar.all_chars p s = true ->
  forall x, In x (list_ascii_of_string s) -> p x = true.
Proof.
  induction s as [| c s IH]; intros H x Hx; [contradiction |].
  cbn in H. apply andb_true_iff in H. destruct H as [Hc Hs].
  destruct Hx as [<- | Hx]; [exact Hc | now apply IH].
Qed.

Lemma substring_chars (p : ascii -> bool) (n : nat) (s : string) :
  MoneyGrammar.all_chars p s = true ->
  MoneyGrammar.all_chars p (substring 0 n s) = true.
Proof.
  revert n. induction s as [| c s IH]; intros n H.
  - destruct n; reflexivity.
  - cbn in H. apply andb_true_iff in H. destruct H as [Hc Hs].
    destruct n; [reflexivity |]. cbn. now rewrite Hc, IH.
Qed.

Lemma substring_length (n : nat) (s : string) :
  (String.length (substring 0 n s) <= n)%nat.
Proof.
  revert n. induction s as [| c s IH]; intros n.
  - destruct n; cbn; lia.
  - destruct n; cbn; [lia |]. specialize (IH n). lia.
Qed.

(** X13.  The name of a worksheet has 31 characters at most and holds
    neither [+] nor [-], whatever the name of the bucket; the five
    buckets of the export get five different worksheets. *)
Theorem sheet_name_fits (bucket_name : string) :
  (String.length (sheet_name bucket_name) <= 31)%nat /\
  MoneyGrammar.all_chars
    (fun c => negb (Ascii.eqb c "+") && negb (Ascii.eqb c "-"))
    (sheet_name bucket_name) = true /\
  NoDup (map sheet_name outstanding_labels).
Proof.
  assert (Hnd : NoDup (map sheet_name outstanding_labels)).
  { vm_compute. repeat constructor; cbn; intuition discriminate. }
  cut ((String.length (sheet_name bucket_name) <= 31)%nat /\
       MoneyGrammar.all_chars
         (fun c => negb (Ascii.eqb c "+") && negb (Ascii.eqb c "-"))
         (sheet_name bucket_name) = true); [tauto |].
  clear Hnd. unfold sheet_name. cbv zeta.
  set (s := str_replace "-" "_" (str_replace "+" "_Plus" bucket_name)).
  assert (Hs : MoneyGrammar.all_chars
                 (fun c => negb (Ascii.eqb c "+") && negb (Ascii.eqb c "-"))
                 s = true).
  { unfold s. apply str_replace_chars; [reflexivity |].
    intros x Hx Hin. rewrite Hx. cbn [negb]. rewrite andb_true_r.
    clear Hx. revert x Hin. apply all_chars_In.
    apply str_replace_chars; [reflexivity |].
    intros x Hx _. now rewrite Hx. }
  destruct (Nat.ltb_spec 31 (String.length s)).
  - split; [apply substring_length | now apply substring_chars].
  - split; [lia | exact Hs].
Qed.

Lemma labelled_cons {A : Type} (key : A -> option string)
  (order : list string) (r : A) (t : list A) :
  NoDup order ->
  Permutation
    (flat_map (fun c => filter (fun x => with_label c (key x)) (r :: t))
              order)
    ((if match key r with
         | Some b => existsb (String.eqb b) order
         | None => false
         end then [r] else []) ++
     flat_map (fun c => filter (fun x => with_label c (key x)) t) order).
Proof.
  induction order as [| c order IH]; intros Hnd.
  - cbn. destruct (key r); constructor.
  - inversion Hnd as [| ? ? Hc Hnd']; subst. specialize (IH Hnd').
    cbn [flat_map]. rewrite (Permutation_app_head _ IH). clear IH.
    cbn [filter]. destruct (key r) as [b |]; cbn [with_label existsb].
    + destruct (String.eqb_spec b c) as [E | E]; cbn [orb].
      * assert (Hno : existsb (String.eqb b) order = false).
        { destruct (existsb (String.eqb b) order) eqn:X; [| reflexivity].
          apply existsb_exists in X. destruct X as [x [Hx Ex]].
          apply String.eqb_eq in Ex. subst. contradiction. }
        rewrite Hno. reflexivity.
      * rewrite !app_assoc. apply Permutation_app_tail.
        apply Permutation_app_comm.
    + reflexivity.
Qed.

Lemma labelled_partition {A : Type} (key : A -> option string)
  (order : list string) (l : list A) :
  NoDup order ->
  (forall x b, In x l -> key x = Some b -> In b order) ->
  Permutation
    (flat_map (fun c => filter (fun x => with_label c (key x)) l) order ++
     filter (fun x => match key x with Some _ => false | None => true end) l)
    l.
Proof.
  intros Hnd. induction l as [| r t IH]; intros Hin.
  - cbn [filter]. rewrite app_nil_r. clear Hin.
    induction order as [| c order IHo]; [constructor |].
    cbn. apply IHo. now inversion Hnd.
  - assert (IH' := IH (fun x b Hx => Hin x b (or_intror Hx))).
    rewrite (labelled_cons key order r t Hnd). cbn [filter].
    destruct (key r) as [b |] eqn:E.
    + assert (Hb : existsb (String.eqb b) order = true).
      { apply existsb_exists. exists b. split; [| apply String.eqb_refl].
        apply (Hin r b); [now left | exact E]. }
      rewrite Hb. cbn [app]. constructor. exact IH'.
    + cbn [app]. apply Permutation_sym. apply Permutation_cons_app.
      apply Permutation_sym. exact IH'.
Qed.

Lemma invoice_bucket (to_datetime : cell -> option Z) (today : Z)
  (r : Row pyfloat) :
  ExportAgingBuckets.Aging_Bucket
    (ExportAgingBuckets.invoice_row to_datetime today r)
  = option_map (fun due =>
                  spec_bucket FinalExport.outstanding
                              ((today - 86400 * due) / 86400))
               (to_datetime (Due_Date r)).
Proof.
  cbn [ExportAgingBuckets.invoice_row ExportAgingBuckets.Aging_Bucket].
  rewrite (pd_cut_option FinalExport.outstanding).
  destruct (to_datetime (Due_Date r)); reflexivity.
Qed.

Lemma flat_map_snd_map {B : Type} (f : string -> list B)
  (l : list string) :
  List.concat (map snd (map (fun b => (b, f b)) l)) = flat_map f l.
Proof.
  rewrite map_map. cbn [snd]. symmetry. apply flat_map_concat_map.
Qed.

Lemma outstanding_labels_nodup : NoDup outstanding_labels.
Proof.
  unfold outstanding_labels. repeat constructor; cbn; intuition discriminate.
Qed.

Lemma buckets_partition (to_datetime : cell -> option Z) (today : Z)
  (raw : list (Row cell)) :
  Permutation
    (List.concat (map snd (ExportAgingBuckets.export_aging_buckets
                        to_datetime today raw)) ++
     filter (fun r => match ExportAgingBuckets.Due_Date_ts r with
                      | Some _ => false
                      | None => true
                      end) (df_invoices to_datetime today raw))
    (df_invoices to_datetime today raw).
Proof.
  unfold ExportAgingBuckets.export_aging_buckets.
  fold (df_invoices to_datetime today raw).
  set (invs := df_invoices to_datetime today raw).
  rewrite (flat_map_snd_map
             (fun bucket =>
                filter (fun r => with_label bucket
                                   (ExportAgingBuckets.Aging_Bucket r))
                       invs)).
  assert (Hrows : forall x, In x invs ->
            ExportAgingBuckets.Aging_Bucket x
            = option_map (fun due =>
                            spec_bucket FinalExport.outstanding
                                        ((today - 86400 * due) / 86400))
                         (ExportAgingBuckets.Due_Date_ts x)).
  { intros x Hx. unfold invs, df_invoices in Hx. apply in_map_iff in Hx.
    destruct Hx as [r [<- _]]. apply invoice_bucket. }
  assert (E : filter (fun r => match ExportAgingBuckets.Due_Date_ts r with
                               | Some _ => false
                               | None => true
                               end) invs
              = filter (fun r => match ExportAgingBuckets.Aging_Bucket r with
                                 | Some _ => false
                                 | None => true
                                 end) invs).
  { apply filter_ext_in. intros x Hx. rewrite (Hrows x Hx).
    destruct (ExportAgingBuckets.Due_Date_ts x); reflexivity. }
  rewrite E.
  apply (labelled_partition ExportAgingBuckets.Aging_Bucket).
  - apply outstanding_labels_nodup.
  - intros x b Hx Hb. rewrite (Hrows x Hx) in Hb.
    destruct (ExportAgingBuckets.Due_Date_ts x); [| discriminate].
    injection Hb as <-. apply (spec_bucket_label FinalExport.outstanding).
Qed.

Lemma Zsum_lengths {A : Type} (bs : list (string * list A)) :
  Zsum (map (fun b => Z.of_nat (List.length (snd b))) bs)
  = Z.of_nat (List.length (List.concat (map snd bs))).
Proof.
  induction bs as [| b bs IH]; [reflexivity |].
  cbn [map List.concat]. rewrite length_app, Nat2Z.inj_add, <- IH.
  reflexivity.
Qed.

Lemma breakdown_total (to_datetime : cell -> option Z) (today : Z)
  (raw : list (Row cell)) :
  Zsum (map snd (aging_breakdown to_datetime today raw))
  = Z.of_nat
      (List.length
         (filter (fun r => match ExportAgingBuckets.Due_Date_ts r with
                           | Some _ => true
                           | None => false
                           end) (df_invoices to_datetime today raw))).
Proof.
  pose proof (buckets_partition to_datetime today raw) as P.
  apply Permutation_length in P. rewrite length_app in P.
  pose proof (filter_two_way
                (fun r => match ExportAgingBuckets.Due_Date_ts r with
                          | Some _ => true
                          | None => false
                          end) (df_invoices to_datetime today raw)) as P2.
  apply Permutation_length in P2. rewrite length_app in P2.
  assert (E : filter (fun x => negb match ExportAgingBuckets.Due_Date_ts x with
                                    | Some _ => true
                                    | None => false
                                    end) (df_invoices to_datetime today raw)
              = filter (fun r => match ExportAgingBuckets.Due_Date_ts r with
                                 | Some _ => false
                                 | None => true
                                 end) (df_invoices to_datetime today raw)).
  { apply filter_ext. intros x.
    destruct (ExportAgingBuckets.Due_Date_ts x); reflexivity. }
  rewrite E in P2.
  unfold aging_breakdown. rewrite map_map. cbn [snd].
  rewrite Zsum_lengths. lia.
Qed.

(** X11.  The buckets of [export_aging_buckets] are the five labels
    in their order; an invoice is in one bucket at most, and the
    buckets hold exactly the invoices whose due date was read: the
    invoices without one are in no bucket, and the counts of
    [aging_breakdown] add up to the number of invoices with a due
    date. *)
Theorem export_buckets_partition (to_datetime : cell -> option Z)
  (today : Z) (raw : list (Row cell)) :
  let buckets :=
    ExportAgingBuckets.export_aging_buckets to_datetime today raw in
  let invoices := df_invoices to_datetime today raw in
  map fst buckets = outstanding_labels /\
  Permutation
    (List.concat (map snd buckets) ++
     filter (fun r => match ExportAgingBuckets.Due_Date_ts r with
                      | Some _ => false
                      | None => true
                      end) invoices)
    invoices /\
  (forall r b1 b2 rows1 rows2,
      In (b1, rows1) buckets -> In (b2, rows2) buckets ->
      In r rows1 -> In r rows2 -> b1 = b2) /\
  Zsum (map snd (aging_breakdown to_datetime today raw))
  = Z.of_nat
      (List.length
         (filter (fun r => match ExportAgingBuckets.Due_Date_ts r with
                           | Some _ => true
                           | None => false
                           end) invoices)).
Proof.
  cbv zeta. split; [| split; [exact (buckets_partition _ _ _) | split]].
  - unfold ExportAgingBuckets.export_aging_buckets. rewrite map_map.
    cbn [fst]. apply map_id.
  - intros r b1 b2 rows1 rows2 H1 H2 Hr1 Hr2.
    unfold ExportAgingBuckets.export_aging_buckets in H1, H2.
    apply in_map_iff in H1. destruct H1 as [c1 [E1 _]].
    apply in_map_iff in H2. destruct H2 as [c2 [E2 _]].
    injection E1 as <- <-. injection E2 as <- <-.
    apply filter_In in Hr1. apply filter_In in Hr2.
    destruct Hr1 as [_ Hr1]. destruct Hr2 as [_ Hr2].
    destruct (ExportAgingBuckets.Aging_Bucket r) as [b |]; [| discriminate].
    apply String.eqb_eq in Hr1. apply String.eqb_eq in Hr2. congruence.
  - apply breakdown_total.
Qed.

Lemma Zsum_nonempty {A : Type} (bs : list (string * list A)) :
  Zsum (map (fun b => Z.of_nat (List.length (snd b)))
            (filter (fun b => (0 <? List.length (snd b))%nat) bs))
  = Zsum (map (fun b => Z.of_nat (List.length (snd b))) bs).
Proof.
  induction bs as [| b bs IH]; [reflexivity |].
  cbn [filter map]. destruct (Nat.ltb_spec 0 (List.length (snd b))).
  - cbn [map]. change (Zsum (?x :: ?l)) with (x + Zsum l).
    now rewrite IH.
  - change (Zsum (?x :: ?l)) with (x + Zsum l). rewrite IH. lia.
Qed.

Lemma Zsum_positive {A : Type} (bs : list (string * list A)) :
  bs <> [] ->
  Forall (fun b => (0 < List.length (snd b))%nat) bs ->
  0 < Zsum (map (fun b => Z.of_nat (List.length (snd b))) bs).
Proof.
  intros Hne H. destruct bs as [| b bs]; [congruence |].
  inversion H as [| ? ? Hb Hbs]; subst. cbn [map].
  change (Zsum (?x :: ?l)) with (x + Zsum l).
  assert (0 <= Zsum (map (fun b => Z.of_nat (List.length (snd b))) bs)).
  { clear. induction bs as [| c bs IH]; [cbn; lia |].
    cbn [map]. change (Zsum (?x :: ?l)) with (x + Zsum l). lia. }
  lia.
Qed.

(** X12.  The summary worksheet of [export_aging_buckets].  When no
    invoice has a due date that was read (so also when the file has no
    invoice) the totals cannot be computed and the export fails.
    Otherwise the worksheet ends with the row TOTAL; the rows before it
    are buckets that have invoices, and their counts and the count of
    the row TOTAL are the number of invoices with a due date, while the
    percentage of that row is always 100. *)
Theorem export_summary_totals (to_datetime : cell -> option Z)
  (today : Z) (raw : list (Row cell)) :
  let dated :=
    filter (fun r => match ExportAgingBuckets.Due_Date_ts r with
                     | Some _ => true
                     | None => false
                     end) (df_invoices to_datetime today raw) in
  (export_summary to_datetime today raw = None <-> dated = []) /\
  (forall rows,
      export_summary to_datetime today raw = Some rows ->
      exists body total,
        rows = (body ++ [total])%list /\
        Aging_Bucket total = "TOTAL" /\
        Invoice_Count total = Z.of_nat (List.length dated) /\
        feq (Percentage_of_Total total) (Fin 100) /\
        Zsum (map Invoice_Count body) = Z.of_nat (List.length dated) /\
        Forall (fun r => 0 < Invoice_Count r /\
                         In (Aging_Bucket r) outstanding_labels) body).
Proof.
  cbv zeta.
  set (invs := df_invoices to_datetime today raw).
  set (buckets := ExportAgingBuckets.export_aging_buckets
                    to_datetime today raw).
  set (dated := filter _ invs).
  set (full := filter (fun b => (0 <? List.length (snd b))%nat) buckets).
  assert (Hsum : Zsum (map (fun b => Z.of_nat (List.length (snd b))) full)
                 = Z.of_nat (List.length dated)).
  { unfold full. rewrite Zsum_nonempty.
    pose proof (breakdown_total to_datetime today raw) as H.
    unfold aging_breakdown in H. rewrite map_map in H. exact H. }
  assert (Hfull : Forall (fun b => (0 < List.length (snd b))%nat) full).
  { apply Forall_forall. intros b Hb. unfold full in Hb.
    apply filter_In in Hb. destruct Hb as [_ Hb].
    now apply Nat.ltb_lt in Hb. }
  assert (Hdata : summary_data (List.length invs) buckets
                  = map (bucket_row (List.length invs)) full)
    by reflexivity.
  assert (Hcount : map Invoice_Count
                       (map (bucket_row (List.length invs)) full)
                   = map (fun b => Z.of_nat (List.length (snd b))) full).
  { rewrite map_map. reflexivity. }
  unfold export_summary, summary_worksheet. fold invs. fold buckets.
  rewrite Hdata. split.
  - destruct full as [| b full'] eqn:Ef.
    + cbn [map]. split; [intros _ | reflexivity].
      cbn in Hsum. destruct dated; [reflexivity | cbn in Hsum; lia].
    + cbn [map]. split; [discriminate |]. intros Hd.
      rewrite Hd in Hsum. cbn [List.length] in Hsum.
      pose proof (Zsum_positive (b :: full') ltac:(discriminate) Hfull).
      lia.
  - intros rows Hrows.
    destruct (map (bucket_row (List.length invs)) full) as [| x data'] eqn:Ed;
      [discriminate |].
    injection Hrows as Hrows. subst rows.
    set (data := x :: data') in *.
    rewrite map_app. cbn [map].
    exists (map round_row data), (round_row (totals_row invs data)).
    split; [reflexivity |]. split; [reflexivity |].
    assert (Hround : map Invoice_Count (map round_row data)
                     = map Invoice_Count data).
    { rewrite map_map. reflexivity. }
    split; [cbn [round_row totals_row Invoice_Count];
            rewrite Hcount; exact Hsum |].
    split; [vm_compute; reflexivity |].
    split; [rewrite Hround, Hcount; exact Hsum |].
    apply Forall_forall. intros r Hr.
    change (In r (map round_row data)) in Hr.
    rewrite <- Ed, map_map in Hr. apply in_map_iff in Hr.
    destruct Hr as [b [<- Hb]].
    cbn [round_row bucket_row Invoice_Count Aging_Bucket]. split.
    + rewrite Forall_forall in Hfull. specialize (Hfull b Hb). lia.
    + unfold full in Hb. apply filter_In in Hb. destruct Hb as [Hb _].
      unfold buckets, ExportAgingBuckets.export_aging_buckets in Hb.
      apply in_map_iff in Hb. destruct Hb as [c [<- Hc]]. exact Hc.
Qed.

End Worksheets.

(* ================================================================== *)
(** * The executive summaries *)
(* ================================================================== *)

Section Summaries.

Import Aggregates.

Local Open Scope string_scope.












End Summaries.

(* ================================================================== *)
(** * The report on the paid invoices *)
(* ================================================================== *)

Section PaidReport.

Import CorrectedReports.

Local Open Scope string_scope.

Lemma filter_comm {A : Type} (p q : A -> bool) (l : list A) :
  filter p (filter q l) = filter q (filter p l).
Proof.
  induction l as [| x l IH]; [reflexivity |].
  cbn [filter]. destruct (p x) eqn:P, (q x) eqn:Q0; cbn [filter];
    rewrite ?P, ?Q0, IH; reflexivity.
Qed.

Lemma Zsum_flat_map {A : Type} (f : string -> list A) (order : list string) :
  Zsum (map (fun c => Z.of_nat (List.length (f c))) order)
  = Z.of_nat (List.length (flat_map f order)).
Proof.
  induction order as [| c order IH]; [reflexivity |].
  cbn [map Zsum fold_right flat_map]. rewrite length_app.
  unfold Zsum in IH. rewrite IH. lia.
Qed.

Lemma filter_split_length {A : Type} (p q r : A -> bool) (l : list A) :
  (forall x, In x l ->
     r x = orb (p x) (q x) /\ andb (p x) (q x) = false) ->
  (List.length (filter p l) + List.length (filter q l)
   = List.length (filter r l))%nat.
Proof.
  induction l as [| x l IH]; intros H; [reflexivity |].
  cbn [filter]. destruct (H x (or_introl eq_refl)) as [Hr Hd].
  assert (IH' := IH (fun y Hy => H y (or_intror Hy))).
  rewrite Hr. destruct (p x), (q x); cbn [orb andb] in *;
    try discriminate; cbn [List.length]; lia.
Qed.

Lemma paid_row_fields (raw : list (Row cell))
  (r : CorrectedFactoringAnalyzer.AgedRow) :
  In r (CorrectedFactoringAnalyzer.df_paid_invoices
          (CorrectedFactoringAnalyzer.prepare_data raw)) ->
  exists lp,
    CorrectedFactoringAnalyzer.Last_Payment_Date_ts
      (CorrectedFactoringAnalyzer.invoice r) = Some lp /\
    CorrectedFactoringAnalyzer.Aging_Delay r
    = option_map (fun due => lp - due)
        (CorrectedFactoringAnalyzer.Due_Date_ts
           (CorrectedFactoringAnalyzer.invoice r)) /\
    CorrectedFactoringAnalyzer.Aging_Bucket r
    = option_map (fun due => spec_bucket FinalExport.paid (lp - due))
        (CorrectedFactoringAnalyzer.Due_Date_ts
           (CorrectedFactoringAnalyzer.invoice r)).
Proof.
  intros Hr. apply corrected_paid_rows in Hr.
  destruct Hr as [x [-> [_ Hp]]].
  unfold CorrectedFactoringAnalyzer.is_paid in Hp.
  destruct (CorrectedFactoringAnalyzer.Last_Payment_Date_ts x) as [lp |] eqn:E;
    [| discriminate].
  exists lp. cbn [CorrectedFactoringAnalyzer.paid_row
                  CorrectedFactoringAnalyzer.invoice
                  CorrectedFactoringAnalyzer.Aging_Delay
                  CorrectedFactoringAnalyzer.Aging_Bucket].
  rewrite E. split; [reflexivity |].
  destruct (CorrectedFactoringAnalyzer.Due_Date_ts x) as [due |];
    cbn [days_between option_map]; split; try reflexivity.
  apply (pd_cut_spec FinalExport.paid).
Qed.

Lemma paid_labels_nodup : NoDup paid_labels.
Proof.
  unfold paid_labels.
  repeat (constructor; [cbn; intuition discriminate |]). constructor.
Qed.

(** X17.  [paid_invoices_aging_analysis] returns nothing exactly when
    no invoice has a payment date; else the invoice counts of its table
    add up to the number of paid invoices that have a readable due date
    and a number, which is at most the number of paid invoices; and the
    early and the late payments are together the paid invoices with a
    readable due date. *)
Theorem paid_analysis_counts (raw : list (Row cell)) :
  let a := CorrectedFactoringAnalyzer.prepare_data raw in
  let paid := CorrectedFactoringAnalyzer.df_paid_invoices a in
  let dated :=
    filter (fun r => CorrectedFactoringAnalyzer.date_notna
                       (CorrectedFactoringAnalyzer.Due_Date_ts
                          (CorrectedFactoringAnalyzer.invoice r))) paid in
  (paid_invoices_aging_analysis a = None <-> paid = []) /\
  (forall rows,
      paid_invoices_aging_analysis a = Some rows ->
      Zsum (map Invoice_Count rows)
      = count_notna (fun r => Number (CorrectedFactoringAnalyzer.base
                                        (CorrectedFactoringAnalyzer.invoice r)))
                    dated /\
      Zsum (map Invoice_Count rows) <= Z.of_nat (List.length paid)) /\
  (early_payments a + late_payments a = List.length dated)%nat.
Proof.
  cbv zeta. set (a := CorrectedFactoringAnalyzer.prepare_data raw).
  assert (Hf := paid_row_fields raw). fold a in Hf.
  set (paid := CorrectedFactoringAnalyzer.df_paid_invoices a) in *.
  set (num := fun r : CorrectedFactoringAnalyzer.AgedRow =>
                Number (CorrectedFactoringAnalyzer.base
                          (CorrectedFactoringAnalyzer.invoice r))).
  set (has_due := fun r : CorrectedFactoringAnalyzer.AgedRow =>
                    CorrectedFactoringAnalyzer.date_notna
                      (CorrectedFactoringAnalyzer.Due_Date_ts
                         (CorrectedFactoringAnalyzer.invoice r))).
  assert (Hsum :
            Zsum (map Invoice_Count
                      (map (paid_row_of (List.length paid) paid) paid_labels))
            = count_notna num (filter has_due paid)).
  { rewrite map_map. cbn [paid_row_of Invoice_Count].
    unfold count_notna, bucket_rows.
    rewrite (map_ext
               (fun l => Z.of_nat (List.length
                  (filter (fun r => notna (Number
                      (CorrectedFactoringAnalyzer.base
                         (CorrectedFactoringAnalyzer.invoice r))))
                     (filter (fun r =>
                        match CorrectedFactoringAnalyzer.Aging_Bucket r with
                        | Some b => String.eqb b l
                        | None => false
                        end) paid))))
               (fun l => Z.of_nat (List.length
                  (filter (fun r => with_label l
                             (CorrectedFactoringAnalyzer.Aging_Bucket r))
                          (filter (fun r => notna (num r)) paid))))).
    2:{ intros l. now rewrite filter_comm. }
    rewrite (Zsum_flat_map
               (fun l => filter (fun r => with_label l
                             (CorrectedFactoringAnalyzer.Aging_Bucket r))
                          (filter (fun r => notna (num r)) paid))).
    assert (Hp := labelled_partition
                    CorrectedFactoringAnalyzer.Aging_Bucket paid_labels
                    (filter (fun r => notna (num r)) paid)
                    paid_labels_nodup).
    assert (Hin : forall x b,
               In x (filter (fun r => notna (num r)) paid) ->
               CorrectedFactoringAnalyzer.Aging_Bucket x = Some b ->
               In b paid_labels).
    { intros x b Hx Hb. apply filter_In in Hx. destruct Hx as [Hx _].
      destruct (Hf x Hx) as [lp [_ [_ Hbk]]]. rewrite Hbk in Hb.
      destruct (CorrectedFactoringAnalyzer.Due_Date_ts
                  (CorrectedFactoringAnalyzer.invoice x)); [| discriminate].
      injection Hb as <-. apply (spec_bucket_label FinalExport.paid). }
    specialize (Hp Hin). apply Permutation_length in Hp.
    rewrite length_app in Hp.
    assert (Hq := filter_two_way has_due
                    (filter (fun r => notna (num r)) paid)).
    apply Permutation_length in Hq. rewrite length_app in Hq.
    rewrite (filter_comm (fun r => notna (num r)) has_due).
    assert (Hnone :
              filter (fun x =>
                        match CorrectedFactoringAnalyzer.Aging_Bucket x with
                        | Some _ => false
                        | None => true
                        end) (filter (fun r => notna (num r)) paid)
              = filter (fun x => negb (has_due x))
                       (filter (fun r => notna (num r)) paid)).
    { apply filter_ext_in. intros x Hx. apply filter_In in Hx.
      destruct Hx as [Hx _]. destruct (Hf x Hx) as [lp [_ [_ Hbk]]].
      rewrite Hbk. unfold has_due.
      destruct (CorrectedFactoringAnalyzer.Due_Date_ts
                  (CorrectedFactoringAnalyzer.invoice x)); reflexivity. }
    rewrite Hnone in Hp. lia. }
  split; [| split].
  - unfold paid_invoices_aging_analysis. fold paid.
    destruct paid; split; intros; congruence.
  - intros rows Hrows.
    assert (rows = map (paid_row_of (List.length paid) paid) paid_labels).
    { unfold paid_invoices_aging_analysis in Hrows. fold paid in Hrows.
      destruct paid; [discriminate |]. now injection Hrows as <-. }
    subst rows. split.
    + exact Hsum.
    + rewrite Hsum. unfold count_notna. apply inj_le.
      etransitivity; [apply filter_length_le |]. apply filter_length_le.
  - unfold early_payments, late_payments. fold paid.
    apply filter_split_length. intros x Hx.
    destruct (Hf x Hx) as [lp [_ [Hd _]]]. rewrite Hd. unfold has_due.
    destruct (CorrectedFactoringAnalyzer.Due_Date_ts
                (CorrectedFactoringAnalyzer.invoice x)) as [due |];
      cbn [option_map le_days gt_days CorrectedFactoringAnalyzer.date_notna];
      [| split; reflexivity].
    destruct (Z.leb_spec (lp - due) 0), (Z.ltb_spec 0 (lp - due));
      try lia; split; reflexivity.
Qed.

Lemma mean_days_nan (col : list (option Z)) :
  mean_days col = NaN <-> Forall (fun d => d = None) col.
Proof.
  unfold mean_days. split.
  - intros H. destruct (present_days col) eqn:E; [| discriminate].
    clear H. induction col as [| [d |] col IH]; [constructor | |].
    + discriminate.
    + constructor; [reflexivity | now apply IH].
  - intros H. assert (E : present_days col = []).
    { induction H as [| d col -> _ IH]; [reflexivity | exact IH]. }
    now rewrite E.
Qed.

(** X18.  The average payment delay of the corrected
    [executive_summary] is no finite number exactly when some invoice
    has a payment date and none of those has a readable due date; it
    is 0 when no invoice has a payment date. *)
Theorem payment_delay_missing (raw : list (Row cell)) :
  let a := CorrectedFactoringAnalyzer.prepare_data raw in
  let paid := CorrectedFactoringAnalyzer.df_paid_invoices a in
  (is_finite (avg_payment_delay (executive_summary a)) = false <->
   paid <> [] /\
   Forall (fun r => CorrectedFactoringAnalyzer.Due_Date_ts
                      (CorrectedFactoringAnalyzer.invoice r) = None) paid) /\
  (paid = [] -> avg_payment_delay (executive_summary a) = Fin 0).
Proof.
  cbv zeta. set (a := CorrectedFactoringAnalyzer.prepare_data raw).
  assert (Hf := paid_row_fields raw). fold a in Hf.
  cbn [executive_summary avg_payment_delay].
  set (paid := CorrectedFactoringAnalyzer.df_paid_invoices a) in *.
  assert (Hall : Forall (fun d => d = None)
                        (map CorrectedFactoringAnalyzer.Aging_Delay paid) <->
                 Forall (fun r => CorrectedFactoringAnalyzer.Due_Date_ts
                          (CorrectedFactoringAnalyzer.invoice r) = None)
                        paid).
  { rewrite Forall_map. rewrite !Forall_forall. split; intros H x Hx.
    - specialize (H x Hx). destruct (Hf x Hx) as [lp [_ [Hd _]]].
      rewrite Hd in H.
      destruct (CorrectedFactoringAnalyzer.Due_Date_ts
                  (CorrectedFactoringAnalyzer.invoice x));
        [discriminate | reflexivity].
    - destruct (Hf x Hx) as [lp [_ [Hd _]]]. rewrite Hd, (H x Hx).
      reflexivity. }
  split.
  - destruct paid as [| x rows] eqn:E.
    + split; [discriminate | intros [H _]; congruence].
    + rewrite <- Hall, <- mean_days_nan. split.
      * intros H. split; [discriminate |].
        unfold mean_days in *.
        destruct (present_days _); [reflexivity | discriminate].
      * intros [_ ->]. reflexivity.
  - intros ->. reflexivity.
Qed.

End PaidReport.

(* ================================================================== *)
(** * The receivable aging and the two normalizers *)
(* ================================================================== *)

Section ReceivableAging.

Import MoneyGrammar.

Local Open Scope string_scope.

Lemma label_counts_total {A : Type} (key : A -> option string)
  (num : A -> cell) (order : list string) (l : list A) :
  NoDup order ->
  (forall x b, In x l -> key x = Some b -> In b order) ->
  Zsum (map (fun c =>
               count_notna num
                 (filter (fun r => match key r with
                                   | Some b => String.eqb b c
                                   | None => false
                                   end) l)) order)
  = count_notna num
      (filter (fun r => match key r with
                        | Some _ => true
                        | None => false
                        end) l).
Proof.
  intros Hnd Hin. unfold count_notna.
  rewrite (map_ext
             (fun c => Z.of_nat (List.length
                (filter (fun r => notna (num r))
                   (filter (fun r => match key r with
                                     | Some b => String.eqb b c
                                     | None => false
                                     end) l))))
             (fun c => Z.of_nat (List.length
                (filter (fun r => with_label c (key r))
                        (filter (fun r => notna (num r)) l))))).
  2:{ intros c. now rewrite filter_comm. }
  rewrite (Zsum_flat_map
             (fun c => filter (fun r => with_label c (key r))
                              (filter (fun r => notna (num r)) l))).
  assert (Hp := labelled_partition key order
                  (filter (fun r => notna (num r)) l) Hnd).
  assert (Hin' : forall x b,
             In x (filter (fun r => notna (num r)) l) ->
             key x = Some b -> In b order).
  { intros x b Hx. apply filter_In in Hx. apply Hin. tauto. }
  specialize (Hp Hin'). apply Permutation_length in Hp.
  rewrite length_app in Hp.
  set (some := fun r => match key r with
                        | Some _ => true
                        | None => false
                        end).
  assert (Hq := filter_two_way some (filter (fun r => notna (num r)) l)).
  apply Permutation_length in Hq. rewrite length_app in Hq.
  rewrite (filter_comm (fun r => notna (num r)) some).
  assert (Hnone :
            filter (fun x => match key x with
                             | Some _ => false
                             | None => true
                             end) (filter (fun r => notna (num r)) l)
            = filter (fun x => negb (some x))
                     (filter (fun r => notna (num r)) l)).
  { apply filter_ext. intros x. unfold some. destruct (key x); reflexivity. }
  rewrite Hnone in Hp. lia.
Qed.

Lemma filter_map_swap {A B : Type} (f : A -> B) (p : B -> bool)
  (l : list A) :
  filter p (map f l) = map f (filter (fun x => p (f x)) l).
Proof.
  induction l as [| x l IH]; [reflexivity |].
  cbn [map filter]. destruct (p (f x)); cbn [map]; now rewrite IH.
Qed.

Lemma filter_both {A : Type} (p q : A -> bool) (l : list A) :
  filter p (filter q l) = filter (fun x => p x && q x) l.
Proof.
  induction l as [| x l IH]; [reflexivity |].
  cbn [filter]. destruct (q x), (p x) eqn:P; cbn [filter andb];
    rewrite ?P, IH; reflexivity.
Qed.

(** X19.  The invoice counts of [accounts_receivable_aging] add up to
    the number of invoices with a number and a readable due date: the
    clock moves invoices between buckets and leaves the total as it
    is. *)
Theorem aging_counts_total (to_datetime : cell -> option Z) (now : Z)
  (raw : list (Row cell)) :
  let a := FactoringAnalyzer.prepare_data to_datetime now raw in
  let counted :=
    filter (fun r => notna (Number r) &&
                     match to_datetime (Due_Date r) with
                     | Some _ => true
                     | None => false
                     end)
           (filter (type_is "Invoice") (map (map_monetary normalize) raw)) in
  Zsum (map snd (FactoringAnalyzer.aging_counts a))
  = Z.of_nat (List.length counted) /\
  forall now',
    Zsum (map snd (FactoringAnalyzer.aging_counts
                     (FactoringAnalyzer.prepare_data to_datetime now' raw)))
    = Zsum (map snd (FactoringAnalyzer.aging_counts a)).
Proof.
  cbv zeta.
  assert (Hsum : forall t,
    Zsum (map snd (FactoringAnalyzer.aging_counts
                     (FactoringAnalyzer.prepare_data to_datetime t raw)))
    = Z.of_nat (List.length
        (filter (fun r => notna (Number r) &&
                          match to_datetime (Due_Date r) with
                          | Some _ => true
                          | None => false
                          end)
           (filter (type_is "Invoice")
                   (map (map_monetary normalize) raw))))).
  { intros t. unfold FactoringAnalyzer.aging_counts.
    rewrite map_map. cbn [snd].
    rewrite (label_counts_total FactoringAnalyzer.Aging_Bucket
               (fun r => Number (FactoringAnalyzer.base r))
               outstanding_labels _ outstanding_labels_nodup).
    - unfold count_notna. f_equal.
      cbn [FactoringAnalyzer.prepare_data FactoringAnalyzer.df].
      generalize (filter (type_is "Invoice")
                         (map (map_monetary normalize) raw)).
      intros inv. rewrite !filter_map_swap, !length_map.
      rewrite filter_both. f_equal. apply filter_ext. intros r.
      cbn [FactoringAnalyzer.analysis_row FactoringAnalyzer.base
           FactoringAnalyzer.Aging_Bucket].
      rewrite (pd_cut_option FinalExport.outstanding).
      destruct (to_datetime (Due_Date r)); cbn [days_since option_map];
        destruct (notna (Number r)); reflexivity.
    - intros x b Hx Hb.
      cbn [FactoringAnalyzer.prepare_data FactoringAnalyzer.df] in Hx.
      apply in_map_iff in Hx. destruct Hx as [r [<- _]].
      cbn [FactoringAnalyzer.analysis_row FactoringAnalyzer.Aging_Bucket]
        in Hb.
      rewrite (pd_cut_option FinalExport.outstanding) in Hb.
      destruct (days_since t (to_datetime (Due_Date r))); [| discriminate].
      injection Hb as <-. apply (spec_bucket_label FinalExport.outstanding). }
  split.
  - apply Hsum.
  - intros now'. now rewrite !Hsum.
Qed.

Lemma str_delete_comm (a b : ascii) (s : string) :
  str_replace a "" (str_replace b "" s)
  = str_replace b "" (str_replace a "" s).
Proof.
  induction s as [| x s IH]; [reflexivity |].
  cbn [str_replace].
  destruct (Ascii.eqb x b) eqn:B, (Ascii.eqb x a) eqn:A0;
    cbn [str_replace append]; rewrite ?A0, ?B; cbn [append];
    rewrite IH; reflexivity.
Qed.

Lemma str_delete_absent (a : ascii) (s : string) :
  all_chars (fun x => negb (Ascii.eqb x a)) s = true ->
  str_replace a "" s = s.
Proof.
  induction s as [| x s IH]; [reflexivity |].
  cbn [all_chars str_replace]. intros H. apply andb_true_iff in H.
  destruct H as [Hx Hs]. apply negb_true_iff in Hx. rewrite Hx.
  now rewrite IH.
Qed.

Lemma replaced_values_read_alike (t : string) :
  fillna (Fin 0)
    (to_numeric (replace_value "" "0" (replace_value "nan" "0" t)))
  = fillna (Fin 0) (to_numeric t).
Proof.
  unfold replace_value.
  destruct (String.eqb_spec t "nan") as [-> | Hn]; [reflexivity |].
  destruct (String.eqb_spec t "") as [-> | He]; reflexivity.
Qed.

(** X20.  The normalizer of [FactoringAnalyzer] is the normalizer of
    [CorrectedFactoringAnalyzer] applied to the text without its
    blanks: the two agree on every cell whose text has no blank, and
    differ on some cell with one. *)
Theorem normalizers_related :
  (forall c,
      Monetary.normalize c
      = CorrectedFactoringAnalyzer.normalize
          (CStr (str_replace " " "" (astype_str c)))) /\
  (forall c,
      all_chars (fun x => negb (Ascii.eqb x " ")) (astype_str c) = true ->
      CorrectedFactoringAnalyzer.normalize c = Monetary.normalize c) /\
  (exists c,
      ~ feq (CorrectedFactoringAnalyzer.normalize c)
            (Monetary.normalize c)).
Proof.
  assert (H1 : forall c,
             Monetary.normalize c
             = CorrectedFactoringAnalyzer.normalize
                 (CStr (str_replace " " "" (astype_str c)))).
  { intros c. unfold Monetary.normalize, Monetary.clean_monetary,
      CorrectedFactoringAnalyzer.normalize,
      CorrectedFactoringAnalyzer.clean_monetary.
    cbv zeta. cbn [astype_str]. rewrite replaced_values_read_alike.
    rewrite (str_delete_comm " " ","), (str_delete_comm " " "$").
    reflexivity. }
  split; [exact H1 |]. split.
  - intros c Hc. rewrite H1. rewrite (str_delete_absent " " _ Hc).
    destruct c; reflexivity.
  - exists (CStr "$1 000.00"). vm_compute. discriminate.
Qed.

End ReceivableAging.
